(** * Order processing backend: order transactions, inventory, connection manager

    A shallow embedding of the order routes (create / cancel), the admin
    status update and the [DatabaseConnection] manager, followed by the
    properties of the specification that concern them; then the code
    around them: the client handle of the manager, the database error
    handler, the authentication middleware, slugs and categories, the
    address book, the wishlist and the bulk update of products.

    - JavaScript numbers are IEEE-754 binary64 values, modelled with the
      executable specification [SpecFloat] (precision 53, emax 1024).
    - The data store is a record of tables, each a finite map from the
      primary key to the row.
    - An interactive transaction is a state-and-error computation over the
      store: it commits the final store when the callback returns and keeps
      the initial store when any statement raises. *)

From Stdlib Require Import ZArith Lia Bool.
From Stdlib Require Import Floats.SpecFloat.
From Stdlib Require Import Strings.Ascii Strings.String.
From stdpp Require Import base option list gmap strings pretty.
From Equations Require Import Equations.

Set Default Proof Using "Type".
Local Open Scope Z_scope.

(* ===================================================================== *)
(** ** JavaScript numbers *)
(* ===================================================================== *)

Module JSNumber.

Definition prec : Z := 53.
Definition emax : Z := 1024.

(** A JavaScript Number. *)
Definition number : Type := spec_float.

(** An integer literal or an integer coming from JSON, rounded to nearest
    even when it does not fit 53 bits. *)
Definition of_Z (n : Z) : number := binary_normalize prec emax n 0 false.

Definition add (x y : number) : number := SFadd prec emax x y.
Definition mul (x y : number) : number := SFmul prec emax x y.
Definition div (x y : number) : number := SFdiv prec emax x y.

(** [x >= y]; false as soon as one side is NaN. *)
Definition ge (x y : number) : bool := SFleb y x.

(** The literal [0.18]: the double nearest to 18/100. *)
Definition lit_0_18 : number := div (of_Z 18) (of_Z 100).

(** The literal [0.5]. *)
Definition lit_0_5 : number := div (of_Z 1) (of_Z 2).

(** [Math.round]: the integer nearest to [x], ties towards +infinity; NaN,
    infinities and zeros are returned unchanged, and a result of zero keeps
    the sign of [x]. A finite [x] is [(-1)^s * m * 2^e]; with a negative
    exponent the result is [floor (x + 1/2)], computed exactly. *)
Definition Math_round (x : number) : number :=
  match x with
  | S754_finite s m e =>
      if 0 <=? e then x
      else
        let d := 2 ^ (- e) in
        let n := ((if s then Z.neg m else Z.pos m) * 2 + d) / (2 * d) in
        if n =? 0 then S754_zero s else of_Z n
  | _ => x
  end.

(** Structural equality test on numbers (it tells [+0] from [-0]). *)
Definition same (x y : number) : bool :=
  match x, y with
  | S754_zero a, S754_zero b => Bool.eqb a b
  | S754_infinity a, S754_infinity b => Bool.eqb a b
  | S754_nan, S754_nan => true
  | S754_finite a m e, S754_finite b m' e' =>
      Bool.eqb a b && Pos.eqb m m' && Z.eqb e e'
  | _, _ => false
  end.

(** [0 <= x < 1], the range of [Math.random()]. *)
Definition in_unit_interval (x : number) : bool :=
  match x with
  | S754_zero false => true
  | S754_finite false m e => (e <? 0) && (Z.pos m <? 2 ^ (- e))
  | _ => false
  end.

End JSNumber.

(* ===================================================================== *)
(** ** JavaScript strings *)
(* ===================================================================== *)

Module JSString.

(** The digit characters used by [Number.prototype.toString(radix)]. *)
Definition digit_char (d : Z) : ascii :=
  if d <? 10 then ascii_of_nat (Z.to_nat (48 + d))
  else ascii_of_nat (Z.to_nat (97 + (d - 10))).

(** Successive radix-36 digits of the fraction [num / den]. *)
Fixpoint fraction_digits (fuel : nat) (num den : Z) : list Z :=
  match fuel with
  | O => []
  | S fuel' =>
      if num =? 0 then []
      else let t := num * 36 in (t / den) :: fraction_digits fuel' (t mod den) den
  end.

Definition string_of_digits (ds : list Z) : string :=
  string_of_list_ascii (map digit_char ds).

(** [x.toString(36)] for [0 <= x < 1]: ["0"] for zero, otherwise ["0."]
    followed by the radix-36 digits of [x]. The fraction [m * 2^e] has a
    finite expansion of at most [-e] digits, which is written out in full.
    An engine stops as soon as the digits written identify the double, so
    it never prints more digits than this, and prints exactly these when
    the expansion is shorter than the double's precision. *)
Definition toString36 (x : JSNumber.number) : string :=
  match x with
  | S754_finite false m e =>
      "0." ++ string_of_digits (fraction_digits (Z.to_nat (- e)) (Z.pos m) (2 ^ (- e)))
  | _ => "0"
  end.

Definition upper_char (c : ascii) : ascii :=
  let n := nat_of_ascii c in
  if ((97 <=? n) && (n <=? 122))%nat then ascii_of_nat (n - 32) else c.

(** [s.toUpperCase()] on ASCII text. *)
Fixpoint toUpperCase (s : string) : string :=
  match s with
  | EmptyString => EmptyString
  | String c r => String (upper_char c) (toUpperCase r)
  end.

(** [s.substr(start, len)]. *)
Definition substr (start len : nat) (s : string) : string :=
  String.substring start len s.

(** Template-literal rendering of an integer. *)
Definition of_int (n : Z) : string := pretty n.

(** An upper-case radix-36 digit: [0-9A-Z]. *)
Definition is_base36_upper (c : ascii) : bool :=
  let n := nat_of_ascii c in
  (((48 <=? n) && (n <=? 57)) || ((65 <=? n) && (n <=? 90)))%nat.

Fixpoint forallb_string (p : ascii -> bool) (s : string) : bool :=
  match s with
  | EmptyString => true
  | String c r => p c && forallb_string p r
  end.

End JSString.

(* ===================================================================== *)
(** ** Data model and data store *)
(* ===================================================================== *)

Module Store.

(** Modelled from the spec: the order-status enumeration. The data-store
    schema that declares it is not among the sources (the routes only name
    ['PENDING'] and ['CANCELLED']); its values are the states of the
    specification's order state machine. *)
Inductive OrderStatus := PENDING | CONFIRMED | SHIPPED | DELIVERED | CANCELLED.

(** Modelled from the spec: the column default of [status], declared in the
    same schema: an order is PENDING when it is created. *)
Definition default_status : OrderStatus := PENDING.

Global Instance OrderStatus_eq_dec : EqDecision OrderStatus.
Proof. solve_decision. Defined.

(** The columns of a product that the order routes read or write, and
    [salePrice], which they could read. *)
Record Product := mkProduct {
  p_name : string;
  price : JSNumber.number;
  salePrice : option JSNumber.number;
  stock : Z;
  isActive : bool
}.

Record Address := mkAddress {
  a_userId : string
}.

(** One line of the request body's [items] array. Quantities are integers,
    of either sign: the route does not restrict them. *)
Record Item := mkItem {
  productId : string;
  quantity : Z;
  size : option string;
  color : option string
}.

Record OrderItem := mkOrderItem {
  oi_productId : string;
  oi_quantity : Z;
  oi_price : JSNumber.number;
  oi_size : option string;
  oi_color : option string
}.

Record Order := mkOrder {
  orderNumber : string;
  o_userId : string;
  o_addressId : string;
  status : OrderStatus;
  totalAmount : JSNumber.number;
  shippingCost : JSNumber.number;
  taxAmount : JSNumber.number;
  paymentMethod : string;
  notes : option string;
  orderItems : list OrderItem
}.

(** The tables, keyed by primary key. *)
Record Db := mkDb {
  products : gmap string Product;
  addresses : gmap string Address;
  orders : gmap string Order
}.

Definition set_products (f : gmap string Product -> gmap string Product) (db : Db) : Db :=
  {| products := f (products db); addresses := addresses db; orders := orders db |}.

Definition set_orders (f : gmap string Order -> gmap string Order) (db : Db) : Db :=
  {| products := products db; addresses := addresses db; orders := f (orders db) |}.

Definition set_stock (n : Z) (p : Product) : Product :=
  {| p_name := p_name p; price := price p; salePrice := salePrice p;
     stock := n; isActive := isActive p |}.

Definition set_status (s : OrderStatus) (o : Order) : Order :=
  {| orderNumber := orderNumber o; o_userId := o_userId o;
     o_addressId := o_addressId o; status := s;
     totalAmount := totalAmount o; shippingCost := shippingCost o;
     taxAmount := taxAmount o; paymentMethod := paymentMethod o;
     notes := notes o; orderItems := orderItems o |}.

(** *** Reads *)

(** [prisma.product.findUnique({ where: { id } })] *)
Definition product_findUnique (db : Db) (id : string) : option Product :=
  products db !! id.

(** [prisma.address.findFirst({ where: { id, userId } })] *)
Definition address_findFirst (db : Db) (id userId : string) : option Address :=
  match addresses db !! id with
  | Some a => if bool_decide (a_userId a = userId) then Some a else None
  | None => None
  end.

(** [prisma.order.findFirst({ where: { id, userId, status } })] *)
Definition order_findFirst (db : Db) (id userId : string) (st : OrderStatus)
  : option Order :=
  match orders db !! id with
  | Some o =>
      if bool_decide (o_userId o = userId) && bool_decide (status o = st)
      then Some o else None
  | None => None
  end.

(** *** Writes: each returns [None] when the statement raises. *)

(** Whether some stored order already carries this order number. *)
Definition orderNumber_taken (db : Db) (n : string) : bool :=
  bool_decide (map_Exists (fun _ o => orderNumber o = n) (orders db)).

(** [order.create({ data })] with its nested [orderItems.create]: the row is
    stored under the key [id] that the store generates. The statement raises
    on a primary-key collision, and on an order-number collision: the
    specification has [orderNumber] unique (the constraint itself is in the
    schema). *)
Definition order_create (id : string) (data : Order) (db : Db) : option (Order * Db) :=
  match orders db !! id with
  | Some _ => None
  | None =>
      if orderNumber_taken db (orderNumber data) then None
      else Some (data, set_orders (insert id data) db)
  end.

(** [order.update({ where: { id }, data: { status } })]: raises when no row
    has this id. *)
Definition order_update_status (id : string) (s : OrderStatus) (db : Db)
  : option (Order * Db) :=
  match orders db !! id with
  | Some o => Some (set_status s o, set_orders (insert id (set_status s o)) db)
  | None => None
  end.

(** [product.update({ where: { id }, data: { stock: { decrement: n } } })].
    Raises when no row has this id. *)
Definition product_decrement_stock (id : string) (n : Z) (db : Db)
  : option (Product * Db) :=
  match products db !! id with
  | Some p =>
      let p' := set_stock (stock p - n) p in
      Some (p', set_products (insert id p') db)
  | None => None
  end.

(** [product.update({ where: { id }, data: { stock: { increment: n } } })] *)
Definition product_increment_stock (id : string) (n : Z) (db : Db)
  : option (Product * Db) :=
  match products db !! id with
  | Some p =>
      let p' := set_stock (stock p + n) p in
      Some (p', set_products (insert id p') db)
  | None => None
  end.

(** *** Interactive transactions

    The state of a running transaction is its working copy of the store and
    the number of statements it has run. A statement raises either on its
    own (see the writes above) or because the store or the connection fails
    while it runs; the latter is the fault plan [fault], which tells for each
    statement position whether it fails. *)

Record TxState := mkTx { tx_db : Db; tx_count : nat }.

Definition Tx (A : Type) : Type := TxState -> option (A * TxState).

Definition tx_ret {A} (a : A) : Tx A := fun s => Some (a, s).

Definition tx_bind {A B} (m : Tx A) (k : A -> Tx B) : Tx B :=
  fun s => match m s with
           | Some (a, s') => k a s'
           | None => None
           end.

(** One awaited statement on the transaction client [tx]. *)
Definition tx_statement {A} (fault : nat -> bool) (op : Db -> option (A * Db)) : Tx A :=
  fun s =>
    if fault (tx_count s) then None
    else match op (tx_db s) with
         | Some (a, db') => Some (a, {| tx_db := db'; tx_count := S (tx_count s) |})
         | None => None
         end.

(** [for (const x of l) { await f(x) }] *)
Fixpoint tx_for_each {A} (f : A -> Tx unit) (l : list A) : Tx unit :=
  match l with
  | [] => tx_ret tt
  | x :: rest => tx_bind (f x) (fun _ => tx_for_each f rest)
  end.

(** [prisma.$transaction(async (tx) => body)]: the callback's value and the
    committed store, or the exception and the store as it was. *)
Definition transaction {A} (body : Tx A) (db : Db) : option A * Db :=
  match body {| tx_db := db; tx_count := 0 |} with
  | Some (a, s) => (Some a, tx_db s)
  | None => (None, db)
  end.

End Store.

Notation "'await' x <- m ; k" := (Store.tx_bind m (fun x => k))
  (at level 10, x name, m at level 100, k at level 200, only parsing).
Notation "'await_' m ; k" := (Store.tx_bind m (fun _ => k))
  (at level 10, m at level 100, k at level 200, only parsing).

(* ===================================================================== *)
(** ** Order routes *)
(* ===================================================================== *)

Module Orders.
Import Store.

(** What a handler sends: [res.status(code).json(body)]. *)
Inductive Body :=
| Errors
| Message (message : string)
| MessageOrder (message : string) (order : Order).

Record Response := mkResponse { code : nat; body : Body }.

(** The request body of [POST /]. *)
Record Request := mkRequest {
  items : list Item;
  addressId : string;
  req_paymentMethod : string;
  req_notes : option string
}.

(** What the handler takes from its surroundings during one call: the
    value of [Date.now()], the value of [Math.random()], the key the store
    generates for the new order, and the fault plan of the transaction. *)
Record Env := mkEnv {
  now : Z;
  random : JSNumber.number;
  newId : string;
  fault : nat -> bool
}.

(** No statement fails for reasons outside the store's own rules. *)
Definition no_fault : nat -> bool := fun _ => false.

(** The validators of the route:
    [body('items').isArray({ min: 1 })], [body('addressId').notEmpty()],
    [body('paymentMethod').notEmpty()]. *)
Definition validate (req : Request) : bool :=
  (1 <=? length (items req))%nat
  && negb (bool_decide (addressId req = ""))
  && negb (bool_decide (req_paymentMethod req = "")).

(** The loop [for (const item of items)] that checks each line and
    accumulates [subtotal] and [orderItems]. *)
Fixpoint price_items (db : Db) (its : list Item)
    (subtotal : JSNumber.number) (acc : list OrderItem)
  : Response + (JSNumber.number * list OrderItem) :=
  match its with
  | [] => inr (subtotal, acc)
  | item :: rest =>
      match product_findUnique db (productId item) with
      | None =>
          inl (mkResponse 400
                 (Message ("Product " ++ productId item ++ " not found or inactive")))
      | Some product =>
          if negb (isActive product) then
            inl (mkResponse 400
                   (Message ("Product " ++ productId item ++ " not found or inactive")))
          else if stock product <? quantity item then
            inl (mkResponse 400
                   (Message ("Insufficient stock for " ++ p_name product)))
          else
            let itemTotal := JSNumber.mul (price product) (JSNumber.of_Z (quantity item)) in
            price_items db rest (JSNumber.add subtotal itemTotal)
              (acc ++ [ {| oi_productId := productId item;
                           oi_quantity := quantity item;
                           oi_price := price product;
                           oi_size := size item;
                           oi_color := color item |} ])
      end
  end.

(** [subtotal >= 500 ? 0 : 50] *)
Definition shippingCost_of (subtotal : JSNumber.number) : JSNumber.number :=
  if JSNumber.ge subtotal (JSNumber.of_Z 500) then JSNumber.of_Z 0 else JSNumber.of_Z 50.

(** [Math.round(subtotal * 0.18 * 100) / 100] *)
Definition taxAmount_of (subtotal : JSNumber.number) : JSNumber.number :=
  JSNumber.div
    (JSNumber.Math_round
       (JSNumber.mul (JSNumber.mul subtotal JSNumber.lit_0_18) (JSNumber.of_Z 100)))
    (JSNumber.of_Z 100).

(** [subtotal + shippingCost + taxAmount] *)
Definition totalAmount_of (subtotal : JSNumber.number) : JSNumber.number :=
  JSNumber.add (JSNumber.add subtotal (shippingCost_of subtotal)) (taxAmount_of subtotal).

(** The part after the second dash:
    [Math.random().toString(36).substr(2, 6).toUpperCase()]. *)
Definition orderNumber_suffix (rnd : JSNumber.number) : string :=
  JSString.toUpperCase (JSString.substr 2 6 (JSString.toString36 rnd)).

Definition generate_orderNumber (env : Env) : string :=
  "ORD-" ++ JSString.of_int (now env) ++ "-" ++ orderNumber_suffix (random env).

(** [notes || null] *)
Definition notes_or_null (n : option string) : option string :=
  match n with
  | Some EmptyString => None
  | _ => n
  end.

(** The callback passed to [prisma.$transaction] by the create route. *)
Definition createOrder_tx (env : Env) (data : Order) (its : list Item) : Tx Order :=
  await newOrder <- tx_statement (fault env) (order_create (newId env) data);
  await_ tx_for_each
    (fun item =>
       await_ tx_statement (fault env)
                (product_decrement_stock (productId item) (quantity item));
       tx_ret tt)
    its;
  tx_ret newOrder.

(** [POST /]: create an order for the authenticated user [userId]. *)
Definition createOrder (env : Env) (userId : string) (req : Request) (db : Db)
  : Response * Db :=
  if negb (validate req) then (mkResponse 400 Errors, db)
  else
    match address_findFirst db (addressId req) userId with
    | None => (mkResponse 404 (Message "Address not found"), db)
    | Some _ =>
        match price_items db (items req) (JSNumber.of_Z 0) [] with
        | inl response => (response, db)
        | inr (subtotal, ois) =>
            let data :=
              {| orderNumber := generate_orderNumber env;
                 o_userId := userId;
                 o_addressId := addressId req;
                 status := default_status;
                 totalAmount := totalAmount_of subtotal;
                 shippingCost := shippingCost_of subtotal;
                 taxAmount := taxAmount_of subtotal;
                 paymentMethod := req_paymentMethod req;
                 notes := notes_or_null (req_notes req);
                 orderItems := ois |} in
            match transaction (createOrder_tx env data (items req)) db with
            | (Some order, db') =>
                (mkResponse 201 (MessageOrder "Order created successfully" order), db')
            | (None, db') => (mkResponse 500 (Message "Server error"), db')
            end
        end
    end.

(** The callback passed to [prisma.$transaction] by the cancel route. *)
Definition cancelOrder_tx (fault : nat -> bool) (id : string) (order : Order) : Tx unit :=
  await_ tx_statement fault (order_update_status id CANCELLED);
  tx_for_each
    (fun item =>
       await_ tx_statement fault
                (product_increment_stock (oi_productId item) (oi_quantity item));
       tx_ret tt)
    (orderItems order).

(** [PATCH /:id/cancel] for the authenticated user [userId]. *)
Definition cancelOrder (fault : nat -> bool) (userId id : string) (db : Db)
  : Response * Db :=
  match order_findFirst db id userId PENDING with
  | None => (mkResponse 404 (Message "Order not found or cannot be cancelled"), db)
  | Some order =>
      match transaction (cancelOrder_tx fault id order) db with
      | (Some _, db') => (mkResponse 200 (Message "Order cancelled successfully"), db')
      | (None, db') => (mkResponse 500 (Message "Server error"), db')
      end
  end.

(** Admin [PATCH /orders/:id/status]: one [order.update] outside any
    transaction, with the status taken from the request body. *)
Definition updateOrderStatus (fault : nat -> bool) (id : string) (s : OrderStatus)
    (db : Db) : Response * Db :=
  match (if fault O then None else order_update_status id s db) with
  | Some (order, db') => (mkResponse 200 (MessageOrder "Order status updated" order), db')
  | None => (mkResponse 500 (Message "Server error"), db)
  end.

(** *** Vocabulary for the properties below *)

(** Whether the tax on the whole-number subtotal [n] is the double nearest
    to [18 n / 100], the exact two-decimal value. *)
Definition tax_is_exact (n : Z) : bool :=
  JSNumber.same (taxAmount_of (JSNumber.of_Z n))
                (JSNumber.div (JSNumber.of_Z (18 * n)) (JSNumber.of_Z 100)).

(** [p] holds of [0], ..., [n - 1]. *)
Fixpoint all_below (n : nat) (p : Z -> bool) : bool :=
  match n with
  | O => true
  | S k => p (Z.of_nat k) && all_below k p
  end.

(** A line as the inventory sees it: product key and quantity. *)
Definition lines_of_items (its : list Item) : list (string * Z) :=
  map (fun it => (productId it, quantity it)) its.

Definition lines_of_order (o : Order) : list (string * Z) :=
  map (fun oi => (oi_productId oi, oi_quantity oi)) (orderItems o).

(** The quantity that the lines hold of product [pid], all lines together. *)
Fixpoint line_total (pid : string) (lines : list (string * Z)) : Z :=
  match lines with
  | [] => 0
  | (id, q) :: rest => (if bool_decide (id = pid) then q else 0) + line_total pid rest
  end.

(** The sum, in the order and arithmetic of the route's loop, of unit price
    times quantity over the stored lines. *)
Definition subtotal_of_lines (ois : list OrderItem) : JSNumber.number :=
  fold_left
    (fun acc oi =>
       JSNumber.add acc (JSNumber.mul (oi_price oi) (JSNumber.of_Z (oi_quantity oi))))
    ois (JSNumber.of_Z 0).

(** What the loop of the create route has checked of a line before it
    prices it: the product row exists, is active, and [stock < quantity]
    is false. *)
Definition line_ok (db : Db) (item : Item) (p : Product) : Prop :=
  products db !! productId item = Some p /\
  isActive p = true /\
  (stock p <? quantity item) = false.

(** The line the route stores for [item] when the catalogue row is [p]. *)
Definition orderItem_of (item : Item) (p : Product) : OrderItem :=
  {| oi_productId := productId item; oi_quantity := quantity item;
     oi_price := price p; oi_size := size item; oi_color := color item |}.

Definition stock_of (db : Db) (pid : string) : option Z :=
  stock <$> products db !! pid.

Definition status_of (db : Db) (id : string) : option OrderStatus :=
  status <$> orders db !! id.

Definition set_salePrice (sp : option JSNumber.number) (p : Product) : Product :=
  {| p_name := p_name p; price := price p; salePrice := sp;
     stock := stock p; isActive := isActive p |}.

(** Two stores that differ at most in the sale prices of their products. *)
Definition same_but_salePrice (db1 db2 : Db) : Prop :=
  addresses db1 = addresses db2 /\
  orders db1 = orders db2 /\
  forall pid,
    set_salePrice None <$> products db1 !! pid
    = set_salePrice None <$> products db2 !! pid.

(** The core operations that touch an order's status. *)
Inductive Op :=
| OpCreateOrder (env : Env) (userId : string) (req : Request)
| OpCancelOrder (fault : nat -> bool) (userId id : string)
| OpUpdateOrderStatus (fault : nat -> bool) (id : string) (s : OrderStatus).

Definition step (db : Db) (op : Op) : Db :=
  match op with
  | OpCreateOrder env userId req => (createOrder env userId req db).2
  | OpCancelOrder fault userId id => (cancelOrder fault userId id db).2
  | OpUpdateOrderStatus fault id s => (updateOrderStatus fault id s db).2
  end.

Definition run (ops : list Op) (db : Db) : Db := fold_left step ops db.

(** The statement that [CANCELLED] is terminal and entered only from
    [PENDING], over all sequences of core operations. *)
Definition cancelled_is_terminal : Prop :=
  forall (ops : list Op) (db : Db) (id : string),
    status_of db id = Some CANCELLED ->
    status_of (run ops db) id = Some CANCELLED.

Definition cancelled_only_from_pending : Prop :=
  forall (op : Op) (db : Db) (id : string) (s : OrderStatus),
    status_of db id = Some s ->
    status_of (step db op) id = Some CANCELLED ->
    s = CANCELLED \/ s = PENDING.


End Orders.

(* ===================================================================== *)
(** ** Sample data *)
(* ===================================================================== *)

Module Demo.
Import Store Orders.

Definition cotton : Product :=
  {| p_name := "Cotton"; price := JSNumber.of_Z 100;
     salePrice := Some (JSNumber.of_Z 80); stock := 10; isActive := true |}.

Definition db0 : Db :=
  {| products := {[ "p1" := cotton ]};
     addresses := {[ "a1" := {| a_userId := "u1" |} ]};
     orders := ∅ |}.

Definition env0 : Env :=
  {| now := 1700000000000; random := JSNumber.lit_0_18; newId := "o1";
     fault := no_fault |}.

Definition line (q : Z) : Item :=
  {| productId := "p1"; quantity := q; size := None; color := None |}.

Definition request (its : list Item) : Request :=
  {| items := its; addressId := "a1"; req_paymentMethod := "COD";
     req_notes := None |}.

(** A fault plan in which only the statement at position [k] fails. *)
Definition fault_at (k : nat) : nat -> bool := fun n => Nat.eqb n k.

End Demo.

(* ===================================================================== *)
(** ** The connection manager *)
(* ===================================================================== *)

Module Connection.
Local Open Scope nat_scope.

(** The mutable fields of [DatabaseConnection]. The client handle is taken
    as acquired: every route module calls [getInstance()] when it loads. *)
Record Manager := mkManager {
  isConnected : bool;
  connectionRetries : nat;
  maxRetries : nat
}.

(** The state the constructor leaves. *)
Definition new_manager : Manager :=
  {| isConnected := false; connectionRetries := 0; maxRetries := 5 |}.

(** What the manager does to the outside world, in order. *)
Inductive Event :=
| Attempt (ok : bool)   (* [$connect()] then [SELECT 1] inside [testConnection] *)
| Delay (ms : nat)      (* [this.delay(ms)] *)
| Probe (ok : bool).    (* the [SELECT 1] of [healthCheck] *)

(** The outside world: how many times the store has been contacted, and the
    log of events. The store's availability is an oracle [up] that tells
    whether the n-th contact succeeds. *)
Record World := mkWorld { clock : nat; trace : list Event }.

Inductive Outcome := Return (b : bool) | Throw.

Definition connect_and_query (up : nat -> bool) (w : World) : bool * World :=
  (up (clock w),
   {| clock := S (clock w); trace := trace w ++ [Attempt (up (clock w))] |}).

Definition probe (up : nat -> bool) (w : World) : bool * World :=
  (up (clock w),
   {| clock := S (clock w); trace := trace w ++ [Probe (up (clock w))] |}).

Definition delay (ms : nat) (w : World) : World :=
  {| clock := clock w; trace := trace w ++ [Delay ms] |}.

Definition set_connected (b : bool) (m : Manager) : Manager :=
  {| isConnected := b; connectionRetries := connectionRetries m;
     maxRetries := maxRetries m |}.

Definition set_retries (n : nat) (m : Manager) : Manager :=
  {| isConnected := isConnected m; connectionRetries := n;
     maxRetries := maxRetries m |}.

(** The events of [k] failed attempts, each followed by its wait, when the
    retry counter starts at [c]. *)
Fixpoint retry_events (c k : nat) : list Event :=
  match k with
  | O => []
  | S k' => Attempt false :: Delay (2000 * S c) :: retry_events (S c) k'
  end.

(** [async testConnection()]. The recursive call happens only after the
    counter has moved one step closer to [maxRetries]. *)
Equations? testConnection (up : nat -> bool) (m : Manager) (w : World)
  : Outcome * Manager * World by wf (maxRetries m - connectionRetries m) lt :=
testConnection up m w with connect_and_query up w := {
  | (true, w1) => (Return true, set_retries 0 (set_connected true m), w1)
  | (false, w1) with lt_dec (connectionRetries m) (maxRetries m) := {
      | left Hlt =>
          testConnection up
            (set_retries (S (connectionRetries m)) (set_connected false m))
            (delay (2000 * S (connectionRetries m)) w1)
      | right _ => (Throw, set_connected false m, w1)
    }
}.
Proof. simpl. lia. Qed.

(** [async healthCheck()] *)
Definition healthCheck (up : nat -> bool) (m : Manager) (w : World)
  : bool * Manager * World :=
  let '(r, m1, w1) :=
    if negb (isConnected m) then testConnection up m w else (Return true, m, w) in
  match r with
  | Throw => (false, set_connected false m1, w1)
  | Return _ =>
      match probe up w1 with
      | (true, w2) => (true, m1, w2)
      | (false, w2) => (false, set_connected false m1, w2)
      end
  end.

(** One firing of the 30-second timer installed by [setupAutoReconnect]. *)
Definition autoReconnect_tick (up : nat -> bool) (m : Manager) (w : World)
  : Manager * World :=
  if negb (isConnected m) then
    let '(_, m1, w1) := testConnection up m w in (m1, w1)
  else (m, w).

(** [initializeServer()]: listen, or [process.exit(1)]. *)
Inductive Startup := Listening | Exit (status : nat).

Definition initializeServer (up : nat -> bool) (m : Manager) (w : World)
  : Startup * Manager * World :=
  match testConnection up m w with
  | (Return _, m1, w1) => (Listening, m1, w1)
  | (Throw, m1, w1) => (Exit 1, m1, w1)
  end.

(** The middleware [ensureDbConnection]: pass on, or answer 503. *)
Inductive Middleware := Next | Unavailable (status : nat) (errcode : string).

Definition ensureDbConnection (up : nat -> bool) (m : Manager) (w : World)
  : Middleware * Manager * World :=
  match healthCheck up m w with
  | (true, m1, w1) => (Next, m1, w1)
  | (false, m1, w1) => (Unavailable 503 "DB_CONNECTION_ERROR", m1, w1)
  end.

(** The events of [w'] that were added after [w]. *)
Definition events_since (w w' : World) : list Event :=
  drop (length (trace w)) (trace w').

Definition is_attempt (e : Event) : bool :=
  match e with Attempt _ => true | _ => false end.

Definition attempts_in (l : list Event) : nat := length (List.filter is_attempt l).

Fixpoint delays_in (l : list Event) : list nat :=
  match l with
  | [] => []
  | Delay ms :: rest => ms :: delays_in rest
  | _ :: rest => delays_in rest
  end.

End Connection.

(* ===================================================================== *)
(** ** The client handle of the connection manager *)
(* ===================================================================== *)

Module ConnectionHandle.
Import Connection.
Local Open Scope nat_scope.

(** [DatabaseConnection] with its client handle: [prisma] is the client
    made by [new PrismaClient] (clients are numbered in the order they are
    made) or null; [timers] counts the [setInterval] timers installed by
    [setupAutoReconnect], none of which is ever cleared; [created] counts
    the clients made so far. *)
Record Instance := mkInstance {
  manager : Manager;
  prisma : option nat;
  timers : nat;
  created : nat
}.

(** The state the constructor leaves: no client, no timer. *)
Definition new_instance : Instance :=
  {| manager := new_manager; prisma := None; timers := 0; created := 0 |}.

(** [getInstance()]: makes the client and installs the reconnect timer when
    there is no client, and returns the client. *)
Definition getInstance (i : Instance) : nat * Instance :=
  match prisma i with
  | Some c => (c, i)
  | None =>
      (created i,
       {| manager := manager i; prisma := Some (created i);
          timers := S (timers i); created := S (created i) |})
  end.

(** [async disconnect()]; [ok] tells whether [$disconnect()] returns or
    throws. The handle is cleared in the [finally] block either way. *)
Definition disconnect (ok : bool) (i : Instance) : Instance :=
  match prisma i with
  | Some _ =>
      {| manager := if ok then set_connected false (manager i) else manager i;
         prisma := None; timers := timers i; created := created i |}
  | None => i
  end.

(** [getConnectionStatus()] *)
Definition getConnectionStatus (i : Instance) : bool * nat * nat :=
  (isConnected (manager i), connectionRetries (manager i), maxRetries (manager i)).

(** Calls on the handle, as a caller may sequence them. *)
Inductive HandleOp := GetInstance | Disconnect (ok : bool).

Definition handle_step (i : Instance) (op : HandleOp) : Instance :=
  match op with
  | GetInstance => (getInstance i).2
  | Disconnect ok => disconnect ok i
  end.

Definition handle_run (ops : list HandleOp) (i : Instance) : Instance :=
  fold_left handle_step ops i.

End ConnectionHandle.

(* ===================================================================== *)
(** ** The error-handling middleware *)
(* ===================================================================== *)

Module PrismaErrors.

(** What [handlePrismaErrors] reads of the error object: [error.code],
    [error.message] and [error.meta.target], each possibly undefined. *)
Record PrismaError := mkPrismaError {
  e_code : option string;
  e_message : option string;
  e_target : option (list string)
}.

(** [res.status(status).json({ message, code })] *)
Record ErrorResponse := mkErrorResponse {
  er_status : nat;
  er_message : string;
  er_code : string
}.

(** [haystack.includes(needle)] *)
Fixpoint includes (needle haystack : string) : bool :=
  String.prefix needle haystack
  || match haystack with
     | EmptyString => false
     | String _ rest => includes needle rest
     end.

(** [error.code === c] *)
Definition code_is (e : PrismaError) (c : string) : bool :=
  bool_decide (e_code e = Some c).

(** [error.meta?.target?.[0] || 'field'] *)
Definition duplicate_field (e : PrismaError) : string :=
  match e_target e with
  | Some (String c f :: _) => String c f
  | _ => "field"
  end.

(** [error.message?.includes('timeout')] *)
Definition mentions_timeout (e : PrismaError) : bool :=
  match e_message e with
  | Some m => includes "timeout" m
  | None => false
  end.

Definition handlePrismaErrors (e : PrismaError) : ErrorResponse :=
  if code_is e "P1001" || code_is e "P1002" || code_is e "P1008" then
    mkErrorResponse 503 "Database connection error. Please try again."
      "DB_CONNECTION_ERROR"
  else if code_is e "P2002" then
    mkErrorResponse 409 (duplicate_field e ++ " already exists") "DUPLICATE_ENTRY"
  else if code_is e "P2025" then
    mkErrorResponse 404 "Record not found" "NOT_FOUND"
  else if code_is e "P2003" then
    mkErrorResponse 400 "Invalid reference to related record" "FOREIGN_KEY_ERROR"
  else if code_is e "P1008" || mentions_timeout e then
    mkErrorResponse 408 "Database operation timed out. Please try again." "DB_TIMEOUT"
  else
    mkErrorResponse 500 "Internal server error" "INTERNAL_ERROR".

End PrismaErrors.

(* ===================================================================== *)
(** ** The authentication middleware *)
(* ===================================================================== *)

Module Auth.

(** The columns that the middleware selects of a user row. *)
Record User := mkUser {
  u_id : string;
  u_email : string;
  u_role : string;
  u_isActive : bool
}.

(** What a middleware does: it calls [next()] after attaching the user to
    the request, or answers with a status and a message. *)
Inductive Outcome :=
| Next (user : User)
| Deny (status : nat) (message : string).

(** [s.split(' ')]: the pieces between single spaces. *)
Fixpoint split_spaces (s : string) : list string :=
  match s with
  | EmptyString => [EmptyString]
  | String c rest =>
      if Ascii.eqb c " " then EmptyString :: split_spaces rest
      else match split_spaces rest with
           | piece :: pieces => String c piece :: pieces
           | [] => [String c EmptyString]
           end
  end.

(** [authHeader && authHeader.split(' ')[1]], with every falsy value (no
    header, no second piece, an empty second piece) as [None]. *)
Definition bearer_token (authorization : option string) : option string :=
  match authorization with
  | None => None
  | Some h =>
      match split_spaces h !! 1%nat with
      | Some (String c t) => Some (String c t)
      | _ => None
      end
  end.

(** No character of [s] is a space. *)
Fixpoint no_space (s : string) : bool :=
  match s with
  | EmptyString => true
  | String c r => negb (Ascii.eqb c " ") && no_space r
  end.

Section Middleware.

(** [jwt.verify(token, process.env.JWT_SECRET).userId]: the user id that a
    token carries, or [None] when verification throws. *)
Variable verify : string -> option string.

(** The users table, and whether the read of it throws. *)
Variable users : gmap string User.
Variable read_fails : bool.

(** The part common to the three [authenticate...] functions, up to the
    check of the user row; everything thrown inside the [try] ends in the
    403 answer. *)
Definition authenticateToken (authorization : option string) : Outcome :=
  match bearer_token authorization with
  | None => Deny 401 "Access token required"
  | Some token =>
      match verify token with
      | None => Deny 403 "Invalid token"
      | Some userId =>
          if read_fails then Deny 403 "Invalid token"
          else match users !! userId with
               | Some user =>
                   if u_isActive user then Next user
                   else Deny 401 "Invalid or inactive user"
               | None => Deny 401 "Invalid or inactive user"
               end
      end
  end.

(** [authenticateUser] has the body of [authenticateToken]. *)
Definition authenticateUser (authorization : option string) : Outcome :=
  authenticateToken authorization.

(** [requireAdmin], run on a request that carries [req.user]. *)
Definition requireAdmin (user : User) : Outcome :=
  if negb (bool_decide (u_role user = "ADMIN"))
     && negb (bool_decide (u_role user = "SUPER_ADMIN"))
  then Deny 403 "Admin access required"
  else Next user.

(** [requireSuperAdmin] *)
Definition requireSuperAdmin (user : User) : Outcome :=
  if negb (bool_decide (u_role user = "SUPER_ADMIN"))
  then Deny 403 "Super admin access required"
  else Next user.

(** [authenticateAdmin]: the same steps with the role check before
    [next()]. *)
Definition authenticateAdmin (authorization : option string) : Outcome :=
  match bearer_token authorization with
  | None => Deny 401 "Access token required"
  | Some token =>
      match verify token with
      | None => Deny 403 "Invalid token"
      | Some userId =>
          if read_fails then Deny 403 "Invalid token"
          else match users !! userId with
               | Some user =>
                   if negb (u_isActive user) then Deny 401 "Invalid or inactive user"
                   else if negb (bool_decide (u_role user = "ADMIN"))
                           && negb (bool_decide (u_role user = "SUPER_ADMIN"))
                   then Deny 403 "Admin access required"
                   else Next user
               | None => Deny 401 "Invalid or inactive user"
               end
      end
  end.

(** A chain of two middlewares: the second runs when the first calls
    [next()]. *)
Definition chain (first : Outcome) (second : User -> Outcome) : Outcome :=
  match first with
  | Next user => second user
  | Deny status message => Deny status message
  end.

End Middleware.

(** Admin [PATCH /users/:id/status]: [user.update({ where: { id }, data:
    { isActive } })]; the update raises when no row has this id or when
    [fails]. The answer is the status code. *)
Definition updateUserStatus (fails : bool) (id : string) (active : bool)
    (users : gmap string User) : nat * gmap string User :=
  if fails then (500%nat, users)
  else match users !! id with
       | Some u =>
           (200%nat,
            <[id := {| u_id := u_id u; u_email := u_email u; u_role := u_role u;
                       u_isActive := active |}]> users)
       | None => (500%nat, users)
       end.

End Auth.

(* ===================================================================== *)
(** ** Slugs and the category routes *)
(* ===================================================================== *)

Module Slug.

Definition lower_char (c : ascii) : ascii :=
  let n := nat_of_ascii c in
  if ((65 <=? n) && (n <=? 90))%nat then ascii_of_nat (n + 32) else c.

(** [s.toLowerCase()] on ASCII text. *)
Fixpoint toLowerCase (s : string) : string :=
  match s with
  | EmptyString => EmptyString
  | String c r => String (lower_char c) (toLowerCase r)
  end.

(** The character class [a-z0-9]. *)
Definition is_slug_char (c : ascii) : bool :=
  let n := nat_of_ascii c in
  (((97 <=? n) && (n <=? 122)) || ((48 <=? n) && (n <=? 57)))%nat.

Definition is_dash (c : ascii) : bool := Ascii.eqb c "-".

(** [s.replace(/[^a-z0-9]+/g, '-')]: every maximal run of characters
    outside [a-z0-9] becomes one dash. [in_run] tells that the run the
    scan is in has already been replaced. *)
Fixpoint dash_runs (in_run : bool) (s : string) : string :=
  match s with
  | EmptyString => EmptyString
  | String c r =>
      if is_slug_char c then String c (dash_runs false r)
      else if in_run then dash_runs true r
      else String "-" (dash_runs true r)
  end.

(** The alternative [^-] of [/(^-|-$)/g]. *)
Definition strip_leading_dash (s : string) : string :=
  match s with
  | String c r => if is_dash c then r else s
  | EmptyString => EmptyString
  end.

(** The alternative [-$] of [/(^-|-$)/g]. *)
Fixpoint strip_trailing_dash (s : string) : string :=
  match s with
  | EmptyString => EmptyString
  | String c EmptyString => if is_dash c then EmptyString else s
  | String c r => String c (strip_trailing_dash r)
  end.

(** [name.toLowerCase().replace(/[^a-z0-9]+/g, '-').replace(/(^-|-$)/g, '')] *)
Definition slugify (name : string) : string :=
  strip_trailing_dash (strip_leading_dash (dash_runs false (toLowerCase name))).

(** Every character is in [a-z0-9] or a dash, and no dash follows a dash;
    with [after_dash] set, the text does not start with a dash either. *)
Fixpoint dashes_apart (after_dash : bool) (s : string) : bool :=
  match s with
  | EmptyString => true
  | String c r =>
      if is_dash c then negb after_dash && dashes_apart true r
      else is_slug_char c && dashes_apart false r
  end.

Fixpoint ends_with_dash (s : string) : bool :=
  match s with
  | EmptyString => false
  | String c EmptyString => is_dash c
  | String _ r => ends_with_dash r
  end.

(** Words of [a-z0-9] joined by single dashes: no dash at either end, no
    two dashes in a row, no other character. *)
Definition slug_shaped (s : string) : bool :=
  dashes_apart true s && negb (ends_with_dash s).



End Slug.

Module Categories.

Record Category := mkCategory {
  c_name : string;
  c_slug : string;
  c_description : option string;
  c_image : option string
}.

(** The answers of the category routes. *)
Inductive Answer :=
| Errors                                  (* 400 with the validators' errors *)
| Answered (status : nat) (message : string).

(** The unique constraint on [slug] (the seed script upserts categories by
    slug): some row other than [except] has this slug. *)
Definition slug_taken (except : option string) (slug : string)
    (table : gmap string Category) : bool :=
  bool_decide
    (map_Exists (fun id c => c_slug c = slug /\ Some id <> except) table).

(** [POST /]: [valid] is [validationResult(req).isEmpty()], [name] the name
    as the validators leave it, [newId] the key the store generates,
    [fails] a failure of the store other than a constraint. A constraint
    raises P2002. *)
Definition createCategory (fails valid : bool) (newId name : string)
    (description image : option string) (table : gmap string Category)
  : Answer * gmap string Category :=
  if negb valid then (Errors, table)
  else
    let slug := Slug.slugify name in
    if fails then (Answered 500 "Server error", table)
    else if bool_decide (is_Some (table !! newId)) || slug_taken None slug table
    then (Answered 400 "Category name already exists", table)
    else
      (Answered 201 "Category created successfully",
       <[newId := {| c_name := name; c_slug := slug;
                     c_description := description; c_image := image |}]> table).

(** [PUT /:id]: [name] is [None] when the body's name is falsy; an
    undefined description or image leaves the column as it is. Every
    exception ends in the 500 answer. *)
Definition updateCategory (fails : bool) (id : string) (name : option string)
    (description image : option string) (table : gmap string Category)
  : Answer * gmap string Category :=
  if fails then (Answered 500 "Server error", table)
  else
    match table !! id with
    | None => (Answered 500 "Server error", table)
    | Some c =>
        let c1 := {| c_name := c_name c; c_slug := c_slug c;
                     c_description := match description with
                                      | Some d => Some d
                                      | None => c_description c
                                      end;
                     c_image := match image with
                                | Some i => Some i
                                | None => c_image c
                                end |} in
        match name with
        | Some (String a n) =>
            let slug := Slug.slugify (String a n) in
            if slug_taken (Some id) slug table
            then (Answered 500 "Server error", table)
            else
              (Answered 200 "Category updated successfully",
               <[id := {| c_name := String a n; c_slug := slug;
                          c_description := c_description c1;
                          c_image := c_image c1 |}]> table)
        | _ => (Answered 200 "Category updated successfully", <[id := c1]> table)
        end
    end.

End Categories.

(* ===================================================================== *)
(** ** The address book and the wishlist of a user *)
(* ===================================================================== *)

Module Addresses.

Record AddressRow := mkAddressRow {
  ad_userId : string;
  firstName : string;
  lastName : string;
  company : option string;
  address1 : string;
  address2 : option string;
  city : string;
  state : string;
  postalCode : string;
  country : string;
  phone : option string;
  isDefault : bool
}.

(** The body of [POST /addresses] as the handler destructures it;
    [b_isDefault] is the truth value of [isDefault]. *)
Record AddressBody := mkAddressBody {
  b_firstName : string;
  b_lastName : string;
  b_company : option string;
  b_address1 : string;
  b_address2 : option string;
  b_city : string;
  b_state : string;
  b_postalCode : string;
  b_country : option string;
  b_phone : option string;
  b_isDefault : bool
}.

Inductive Answer :=
| Errors                                  (* 400 with the validators' errors *)
| Answered (status : nat) (message : string).

(** [x || null] *)
Definition or_null (x : option string) : option string :=
  match x with
  | Some (String c r) => Some (String c r)
  | _ => None
  end.

(** [x || d] *)
Definition or_else (d : string) (x : option string) : string :=
  match x with
  | Some (String c r) => String c r
  | _ => d
  end.

Definition set_isDefault (b : bool) (r : AddressRow) : AddressRow :=
  {| ad_userId := ad_userId r; firstName := firstName r; lastName := lastName r;
     company := company r; address1 := address1 r; address2 := address2 r;
     city := city r; state := state r; postalCode := postalCode r;
     country := country r; phone := phone r; isDefault := b |}.

(** [address.updateMany({ where: { userId, isDefault: true },
    data: { isDefault: false } })] *)
Definition unset_defaults (userId : string) (table : gmap string AddressRow)
  : gmap string AddressRow :=
  (fun r => if bool_decide (ad_userId r = userId) && isDefault r
            then set_isDefault false r else r) <$> table.

(** The row that [POST /addresses] creates. *)
Definition row_of_body (userId : string) (b : AddressBody) : AddressRow :=
  {| ad_userId := userId;
     firstName := b_firstName b;
     lastName := b_lastName b;
     company := or_null (b_company b);
     address1 := b_address1 b;
     address2 := or_null (b_address2 b);
     city := b_city b;
     state := b_state b;
     postalCode := b_postalCode b;
     country := or_else "India" (b_country b);
     phone := or_null (b_phone b);
     isDefault := b_isDefault b |}.

(** [address.findFirst({ where: { id, userId } })] *)
Definition findFirst (table : gmap string AddressRow) (id userId : string)
  : option AddressRow :=
  match table !! id with
  | Some r => if bool_decide (ad_userId r = userId) then Some r else None
  | None => None
  end.

(** [POST /addresses]. The two statements are not in a transaction: each
    takes effect when it returns. [fault k] tells that the statement at
    position [k] of the call raises; [valid] is
    [validationResult(req).isEmpty()]; [newId] is the key that the store
    generates. *)
Definition addAddress (fault : nat -> bool) (newId userId : string)
    (valid : bool) (b : AddressBody) (table : gmap string AddressRow)
  : Answer * gmap string AddressRow :=
  if negb valid then (Errors, table)
  else
    let after_unset :=
      if b_isDefault b then
        if fault O then None else Some (unset_defaults userId table, 1%nat)
      else Some (table, O) in
    match after_unset with
    | None => (Answered 500 "Server error", table)
    | Some (t1, k) =>
        if fault k then (Answered 500 "Server error", t1)
        else match t1 !! newId with
             | Some _ => (Answered 500 "Server error", t1)
             | None =>
                 (Answered 201 "Address added successfully",
                  <[newId := row_of_body userId b]> t1)
             end
    end.

(** [PUT /addresses/:id]. The body is passed to [address.update] as it
    is: [apply] is what that update makes of the row, [sets_default] the
    truth value of [updateData.isDefault]. *)
Definition updateAddress (fault : nat -> bool) (id userId : string)
    (valid : bool) (sets_default : bool) (apply : AddressRow -> AddressRow)
    (table : gmap string AddressRow)
  : Answer * gmap string AddressRow :=
  if negb valid then (Errors, table)
  else
    match findFirst table id userId with
    | None => (Answered 404 "Address not found", table)
    | Some _ =>
        let after_unset :=
          if sets_default then
            if fault O then None else Some (unset_defaults userId table, 1%nat)
          else Some (table, O) in
        match after_unset with
        | None => (Answered 500 "Server error", table)
        | Some (t1, k) =>
            if fault k then (Answered 500 "Server error", t1)
            else match t1 !! id with
                 | Some r =>
                     (Answered 200 "Address updated successfully",
                      <[id := apply r]> t1)
                 | None => (Answered 500 "Server error", t1)
                 end
        end
    end.

(** [DELETE /addresses/:id] *)
Definition deleteAddress (fails : bool) (id userId : string)
    (table : gmap string AddressRow)
  : Answer * gmap string AddressRow :=
  match findFirst table id userId with
  | None => (Answered 404 "Address not found", table)
  | Some _ =>
      if fails then (Answered 500 "Server error", table)
      else (Answered 200 "Address deleted successfully", delete id table)
  end.

(** No user has two default addresses. *)
Definition one_default_each (table : gmap string AddressRow) : Prop :=
  forall id1 id2 r1 r2,
    table !! id1 = Some r1 -> table !! id2 = Some r2 ->
    ad_userId r1 = ad_userId r2 ->
    isDefault r1 = true -> isDefault r2 = true ->
    id1 = id2.

End Addresses.

Module Wishlist.

(** The wishlist table holds at most one row for a user and a product
    (the compound key [userId_productId] that [findUnique] reads): it is a
    set of pairs.

    [POST /wishlist/:productId]; [fails] tells that [create] raises. *)
Definition addToWishlist (fails : bool) (userId productId : string)
    (products : gmap string Store.Product) (w : gset (string * string))
  : (nat * string) * gset (string * string) :=
  match products !! productId with
  | None => ((404%nat, "Product not found"), w)
  | Some _ =>
      if bool_decide ((userId, productId) ∈ w)
      then ((400%nat, "Product already in wishlist"), w)
      else if fails then ((500%nat, "Server error"), w)
      else ((200%nat, "Product added to wishlist"), {[ (userId, productId) ]} ∪ w)
  end.

(** [DELETE /wishlist/:productId]; [fails] tells that [deleteMany]
    raises. *)
Definition removeFromWishlist (fails : bool) (userId productId : string)
    (w : gset (string * string))
  : (nat * string) * gset (string * string) :=
  if fails then ((500%nat, "Server error"), w)
  else ((200%nat, "Product removed from wishlist"), w ∖ {[ (userId, productId) ]}).

End Wishlist.

(* ===================================================================== *)
(** ** Reading an order, and the bulk update of products *)
(* ===================================================================== *)

Module OrderReads.
Import Store Orders.

(** [GET /:id] of the order routes: the answer's status and the order. *)
Definition getOrder (userId id : string) (db : Db) : nat * option Order :=
  match orders db !! id with
  | Some o =>
      if bool_decide (o_userId o = userId) then (200%nat, Some o)
      else (404%nat, None)
  | None => (404%nat, None)
  end.

(** The [action] of [PATCH /products/bulk-update] with what [parseFloat]
    or [parseInt] makes of [value]. *)
Inductive BulkAction :=
| Activate
| Deactivate
| UpdatePrice (value : JSNumber.number)
| UpdateStock (value : Z)
| OtherAction.

Definition set_isActive (b : bool) (p : Product) : Product :=
  {| p_name := p_name p; price := price p; salePrice := salePrice p;
     stock := stock p; isActive := b |}.

Definition set_price (v : JSNumber.number) (p : Product) : Product :=
  {| p_name := p_name p; price := v; salePrice := salePrice p;
     stock := stock p; isActive := isActive p |}.

(** [product.updateMany({ where: { id: { in: ids } }, data })] *)
Definition updateMany_in (ids : list string) (f : Product -> Product) (db : Db) : Db :=
  set_products
    (map_imap (fun id p => Some (if bool_decide (id ∈ ids) then f p else p))) db.

(** [PATCH /products/bulk-update]; [fails] tells that [updateMany]
    raises. *)
Definition bulkUpdate (fails : bool) (ids : list string) (action : BulkAction)
    (db : Db) : Response * Db :=
  let update f :=
    if fails then (mkResponse 500 (Message "Server error"), db)
    else (mkResponse 200
            (Message (pretty (length ids) ++ " products updated successfully")),
          updateMany_in ids f db) in
  match action with
  | Activate => update (set_isActive true)
  | Deactivate => update (set_isActive false)
  | UpdatePrice v => update (set_price v)
  | UpdateStock v => update (set_stock v)
  | OtherAction => (mkResponse 400 (Message "Invalid action"), db)
  end.

End OrderReads.

(* ===================================================================== *)
(** ** More sample data *)
(* ===================================================================== *)

Module Samples.
Import Addresses.

Definition home : AddressRow :=
  {| ad_userId := "u1"; firstName := "John"; lastName := "Doe"; company := None;
     address1 := "1 Main Road"; address2 := None; city := "Surat";
     state := "Gujarat"; postalCode := "395001"; country := "India";
     phone := None; isDefault := true |}.

Definition neighbour : AddressRow :=
  {| ad_userId := "u2"; firstName := "Jane"; lastName := "Roe"; company := None;
     address1 := "2 Main Road"; address2 := None; city := "Surat";
     state := "Gujarat"; postalCode := "395001"; country := "India";
     phone := None; isDefault := true |}.

Definition office : AddressBody :=
  {| b_firstName := "John"; b_lastName := "Doe"; b_company := Some "Acme";
     b_address1 := "9 Ring Road"; b_address2 := None; b_city := "Surat";
     b_state := "Gujarat"; b_postalCode := "395002"; b_country := None;
     b_phone := None; b_isDefault := true |}.

Definition book : gmap string AddressRow :=
  {[ "a1" := home; "a2" := neighbour ]}.

End Samples.

(* ===================================================================== *)
(** ** Properties of the store and the order routes *)
(* ===================================================================== *)

Section StoreFacts.
Import Store.

Lemma set_stock_set_stock a b p : set_stock a (set_stock b p) = set_stock a p.
Proof. reflexivity. Qed.

Lemma set_stock_id p : set_stock (stock p) p = p.
Proof. by destruct p. Qed.

Lemma product_increment_as_decrement id n db :
  product_increment_stock id n db = product_decrement_stock id (- n) db.
Proof.
  unfold product_increment_stock, product_decrement_stock.
  destruct (products db !! id) as [p|]; [|done].
  by replace (stock p - - n) with (stock p + n) by lia.
Qed.

Lemma transaction_rollback {A} (body : Tx A) db db' :
  transaction body db = (None, db') -> db' = db.
Proof.
  unfold transaction. destruct (body _) as [[a s]|]; [discriminate|].
  by intros [= <-].
Qed.

Lemma tx_for_each_cons {A} (f : A -> Tx unit) x l s :
  tx_for_each f (x :: l) s
  = match f x s with
    | Some (_, s') => tx_for_each f l s'
    | None => None
    end.
Proof. reflexivity. Qed.

Lemma tx_statement_unit {A} fault (op : Db -> option (A * Db)) s :
  Store.tx_bind (tx_statement fault op) (fun _ => tx_ret tt) s
  = if fault (tx_count s) then None
    else match op (tx_db s) with
         | Some (_, db') => Some (tt, {| tx_db := db'; tx_count := S (tx_count s) |})
         | None => None
         end.
Proof.
  unfold tx_bind, tx_statement, tx_ret.
  destruct (fault (tx_count s)); [done|]. by destruct (op (tx_db s)) as [[]|].
Qed.

(** The stock loop shared by the two routes: one stock statement per line. *)
Section StockLoop.
Context {A : Type} (key : A -> string) (qty : A -> Z) (fault : nat -> bool).

Lemma stock_loop_result (l : list A) : forall s s',
  tx_for_each
    (fun x => Store.tx_bind
                (tx_statement fault (product_decrement_stock (key x) (qty x)))
                (fun _ => tx_ret tt)) l s = Some (tt, s') ->
  addresses (tx_db s') = addresses (tx_db s) /\
  orders (tx_db s') = orders (tx_db s) /\
  (forall x, x ∈ l -> is_Some (products (tx_db s) !! key x)) /\
  forall pid,
    products (tx_db s') !! pid
    = (fun p => set_stock (stock p - Orders.line_total pid (map (fun x => (key x, qty x)) l)) p)
        <$> products (tx_db s) !! pid.
Proof.
  induction l as [|x l IH]; intros s s' H.
  - injection H as <-. repeat split; try done.
    + intros x Hx. by apply elem_of_nil in Hx.
    + intros pid. simpl. destruct (products (tx_db s) !! pid) as [p|]; [|done].
      simpl. by rewrite Z.sub_0_r, set_stock_id.
  - cbn [tx_for_each] in H. unfold tx_bind at 1 in H.
    unfold tx_bind at 1 in H. unfold tx_statement at 1 in H. unfold tx_ret at 1 in H.
    destruct (fault (tx_count s)); [discriminate|].
    unfold product_decrement_stock in H.
    destruct (products (tx_db s) !! key x) as [p|] eqn:Hp; [|discriminate].
    apply IH in H as (Ha & Ho & Hk & Hl). simpl in *.
    repeat split; try done.
    + intros y Hy. apply elem_of_cons in Hy as [->|Hy]; [by rewrite Hp|].
      specialize (Hk y Hy). rewrite lookup_insert in Hk.
      case_decide as E; [rewrite <- E, Hp; eauto | done].
    + intros pid. rewrite Hl, lookup_insert.
      case_bool_decide as Hd; case_decide; try congruence.
      * rewrite <- Hd, Hp. simpl. f_equal. unfold set_stock. simpl. f_equal. lia.
      * destruct (products (tx_db s) !! pid); [|done]. simpl. do 2 f_equal.
Qed.


Lemma stock_loop_succeeds (l : list A) : forall s,
  (forall x, x ∈ l -> is_Some (products (tx_db s) !! key x)) ->
  (forall i : nat, (i < length l)%nat -> fault (tx_count s + i)%nat = false) ->
  exists s',
    tx_for_each
      (fun x => Store.tx_bind
                  (tx_statement fault (product_decrement_stock (key x) (qty x)))
                  (fun _ => tx_ret tt)) l s = Some (tt, s').
Proof.
  induction l as [|x l IH]; intros s Hk Hf; [by eexists|].
  cbn [tx_for_each]. unfold tx_bind at 1. unfold tx_bind at 1.
  unfold tx_statement at 1. unfold tx_ret at 1.
  rewrite <- (Nat.add_0_r (tx_count s)), Hf by (simpl; lia).
  unfold product_decrement_stock.
  destruct (Hk x) as [p Hp]; [by left|]. rewrite Hp.
  apply IH; simpl.
  - intros y Hy. rewrite lookup_insert. case_decide; [done|].
    apply Hk. by right.
  - intros i Hi. rewrite Nat.add_0_r, <- Nat.add_succ_r.
    apply Hf. simpl. lia.
Qed.

End StockLoop.
End StoreFacts.

Section StringFacts.
Import JSString.

Lemma substring_0_length n : forall s, (String.length (substring 0 n s) <= n)%nat.
Proof.
  induction n as [|n IH]; intros [|c s]; simpl; try lia.
  specialize (IH s). lia.
Qed.

Lemma toUpperCase_length s : String.length (toUpperCase s) = String.length s.
Proof. induction s as [|c s IH]; simpl; [done | by rewrite IH]. Qed.

Lemma forallb_string_substring p n : forall s,
  forallb_string p s = true -> forallb_string p (substring 0 n s) = true.
Proof.
  induction n as [|n IH]; intros [|c s]; simpl; try done.
  intros [Hc Hs]%andb_true_iff. rewrite Hc. simpl. by apply IH.
Qed.

Lemma forallb_string_toUpperCase p s :
  forallb_string (fun c => p (upper_char c)) s = true ->
  forallb_string p (toUpperCase s) = true.
Proof.
  induction s as [|c s IH]; simpl; [done|].
  intros [Hc Hs]%andb_true_iff. rewrite Hc. simpl. by apply IH.
Qed.

Lemma fraction_digits_range fuel : forall num den,
  0 <= num < den ->
  Forall (fun d => 0 <= d < 36) (fraction_digits fuel num den).
Proof.
  induction fuel as [|fuel IH]; intros num den Hn; simpl; [constructor|].
  destruct (num =? 0); [constructor|].
  constructor.
  - split.
    + apply Z.div_pos; lia.
    + apply Z.div_lt_upper_bound; lia.
  - apply IH. apply Z.mod_pos_bound. lia.
Qed.

Lemma digit_char_upper d :
  0 <= d < 36 -> is_base36_upper (upper_char (digit_char d)) = true.
Proof.
  intros Hd. rewrite <- (Z2Nat.id d) by lia.
  assert (Hn : (Z.to_nat d < 36)%nat) by lia.
  generalize dependent (Z.to_nat d). clear. intros n Hn.
  do 36 (destruct n as [|n]; [vm_compute; reflexivity|]). lia.
Qed.

Lemma string_of_digits_upper ds :
  Forall (fun d => 0 <= d < 36) ds ->
  forallb_string (fun c => is_base36_upper (upper_char c)) (string_of_digits ds) = true.
Proof.
  unfold string_of_digits.
  induction 1 as [|d ds Hd _ IH]; [done|].
  cbn [map string_of_list_ascii forallb_string]. by rewrite digit_char_upper, IH.
Qed.

(** What does hold of the suffix for every outcome of the random source:
    it has at most 6 characters, all of them in [0-9A-Z]. *)
Lemma orderNumber_suffix_at_most_6 (rnd : JSNumber.number) :
  JSNumber.in_unit_interval rnd = true ->
  (String.length (Orders.orderNumber_suffix rnd) <= 6)%nat /\
  forallb_string is_base36_upper (Orders.orderNumber_suffix rnd) = true.
Proof.
  intros Hr. unfold Orders.orderNumber_suffix, substr.
  split.
  - rewrite toUpperCase_length.
    destruct rnd as [[]| | |[] m e]; try discriminate; simpl; try lia.
    apply substring_0_length.
  - apply forallb_string_toUpperCase.
    destruct rnd as [[]| | |[] m e]; try discriminate; try reflexivity.
    cbn [toString36]. simpl in Hr. apply andb_true_iff in Hr as [He Hm].
    change (substring 2 6 ("0." ++ ?s)) with (substring 0 6 s).
    apply forallb_string_substring, string_of_digits_upper, fraction_digits_range.
    lia.
Qed.
End StringFacts.

Section OrderFacts.
Import Store Orders.

Lemma price_items_inl db its : forall s acc r,
  price_items db its s acc = inl r -> code r = 400%nat.
Proof.
  induction its as [|item its IH]; intros s acc r H; [discriminate|].
  cbn [price_items] in H. unfold product_findUnique in H.
  destruct (products db !! productId item) as [p|]; [|by injection H as <-].
  destruct (isActive p); cbn [negb] in H; [|by injection H as <-].
  destruct (stock p <? quantity item); [by injection H as <-|].
  by apply IH in H.
Qed.

Lemma price_items_inr db its : forall s acc s' ois,
  price_items db its s acc = inr (s', ois) ->
  exists ps,
    Forall2 (line_ok db) its ps /\
    ois = acc ++ zip_with orderItem_of its ps /\
    s' = fold_left
           (fun a oi =>
              JSNumber.add a (JSNumber.mul (oi_price oi) (JSNumber.of_Z (oi_quantity oi))))
           (zip_with orderItem_of its ps) s.
Proof.
  induction its as [|item its IH]; intros s acc s' ois H.
  - injection H as <- <-. exists []. split; [constructor|].
    by rewrite app_nil_r.
  - cbn [price_items] in H. unfold product_findUnique in H.
    destruct (products db !! productId item) as [p|] eqn:Hp; [|discriminate].
    destruct (isActive p) eqn:Ha; cbn [negb] in H; [|discriminate].
    destruct (stock p <? quantity item) eqn:Hs; [discriminate|].
    apply IH in H as (ps & HF & -> & ->).
    exists (p :: ps). split; [by constructor|].
    by rewrite <- app_assoc.
Qed.

Lemma createOrder_tx_unfold env data its s :
  createOrder_tx env data its s
  = if fault env (tx_count s) then None
    else match order_create (newId env) data (tx_db s) with
         | None => None
         | Some (o, db1) =>
             match tx_for_each
                     (fun item =>
                        Store.tx_bind
                          (tx_statement (fault env)
                             (product_decrement_stock (productId item) (quantity item)))
                          (fun _ => tx_ret tt))
                     its {| tx_db := db1; tx_count := S (tx_count s) |}
             with
             | Some (_, s') => Some (o, s')
             | None => None
             end
         end.
Proof.
  unfold createOrder_tx, tx_bind at 1, tx_statement at 1.
  destruct (fault env (tx_count s)); [done|].
  destruct (order_create _ _ _) as [[o db1]|]; [|done].
  unfold tx_bind at 1. by destruct (tx_for_each _ _ _) as [[[] s']|].
Qed.

(** The shape of every successful [createOrder]. *)
Lemma createOrder_created env userId req db resp db' :
  createOrder env userId req db = (resp, db') ->
  code resp = 201%nat ->
  exists ps o,
    resp = mkResponse 201 (MessageOrder "Order created successfully" o) /\
    validate req = true /\
    is_Some (address_findFirst db (addressId req) userId) /\
    Forall2 (line_ok db) (items req) ps /\
    o = {| orderNumber := generate_orderNumber env;
           o_userId := userId;
           o_addressId := addressId req;
           status := PENDING;
           totalAmount := totalAmount_of (subtotal_of_lines (orderItems o));
           shippingCost := shippingCost_of (subtotal_of_lines (orderItems o));
           taxAmount := taxAmount_of (subtotal_of_lines (orderItems o));
           paymentMethod := req_paymentMethod req;
           notes := notes_or_null (req_notes req);
           orderItems := zip_with orderItem_of (items req) ps |} /\
    orders db !! newId env = None /\
    orders db' = <[newId env := o]> (orders db) /\
    addresses db' = addresses db /\
    forall pid,
      products db' !! pid
      = (fun p => set_stock (stock p - line_total pid (lines_of_items (items req))) p)
          <$> products db !! pid.
Proof.
  unfold createOrder. intros H Hcode.
  destruct (validate req) eqn:Hv; cbn [negb] in H;
    [|injection H as <- <-; discriminate].
  destruct (address_findFirst db (addressId req) userId) as [a|] eqn:Haddr;
    [|injection H as <- <-; discriminate].
  destruct (price_items db (items req) (JSNumber.of_Z 0) []) as [r|[subtotal ois]] eqn:Hp.
  { injection H as <- <-. apply price_items_inl in Hp. congruence. }
  apply price_items_inr in Hp as (ps & HF & Hois & Hsub). simpl in Hois. subst ois.
  change (subtotal = subtotal_of_lines (zip_with orderItem_of (items req) ps)) in Hsub.
  subst subtotal.
  unfold transaction, createOrder_tx in H.
  unfold tx_bind at 1 in H. unfold tx_statement at 1 in H. cbn [tx_count tx_db] in H.
  destruct (fault env 0); [injection H as <- <-; discriminate|].
  unfold order_create in H.
  destruct (orders db !! newId env) eqn:Hfresh; [injection H as <- <-; discriminate|].
  destruct (orderNumber_taken db _); [injection H as <- <-; discriminate|].
  unfold tx_bind at 1 in H.
  match type of H with
  | context [tx_for_each ?f ?l ?s] => destruct (tx_for_each f l s) as [[[] s']|] eqn:Hloop
  end; [|injection H as <- <-; discriminate].
  unfold tx_ret in H. injection H as <- <-.
  apply (stock_loop_result productId quantity) in Hloop as (Ha & Ho & _ & Hl).
  cbn [tx_db set_orders orders addresses products] in *.
  eexists ps, _. split; [reflexivity|].
  repeat (split; [done || eauto|]). exact Hl.
Qed.

Lemma price_items_ok db its : forall ps s acc,
  Forall2 (line_ok db) its ps ->
  price_items db its s acc
  = inr (fold_left
           (fun a oi =>
              JSNumber.add a (JSNumber.mul (oi_price oi) (JSNumber.of_Z (oi_quantity oi))))
           (zip_with orderItem_of its ps) s,
         acc ++ zip_with orderItem_of its ps).
Proof.
  induction its as [|item its IH]; intros ps s acc HF.
  - apply Forall2_nil_inv_l in HF as ->. simpl. by rewrite app_nil_r.
  - apply Forall2_cons_inv_l in HF as (p & ps' & (Hp & Ha & Hs) & HF & ->).
    cbn [price_items]. unfold product_findUnique. rewrite Hp, Ha, Hs.
    cbn [negb]. rewrite (IH ps') by done. simpl. by rewrite <- app_assoc.
Qed.

(** A request whose lines all pass the checks is committed when no
    statement fails and the generated key and order number are unused. *)
Lemma createOrder_succeeds env userId req db ps :
  validate req = true ->
  is_Some (address_findFirst db (addressId req) userId) ->
  Forall2 (line_ok db) (items req) ps ->
  (forall n, fault env n = false) ->
  orders db !! newId env = None ->
  orderNumber_taken db (generate_orderNumber env) = false ->
  code (createOrder env userId req db).1 = 201%nat.
Proof.
  intros Hv [a Ha] HF Hfault Hfresh Hnum.
  unfold createOrder. rewrite Hv, Ha. cbn [negb].
  rewrite (price_items_ok _ _ ps) by done.
  unfold transaction, createOrder_tx.
  unfold tx_bind at 1. unfold tx_statement at 1. cbn [tx_count tx_db].
  rewrite Hfault. unfold order_create. rewrite Hfresh.
  cbn [orderNumber]. rewrite Hnum.
  unfold tx_bind at 1.
  match goal with
  | |- context [tx_for_each ?f ?l ?s] =>
      destruct (stock_loop_succeeds productId quantity (fault env) l s) as [s' Hs']
  end.
  - intros x Hx. cbn [tx_db set_orders products].
    apply list_elem_of_lookup in Hx as [i Hi].
    destruct (Forall2_lookup_l _ _ _ _ _ HF Hi) as (p & _ & Hp & _). eauto.
  - intros i _. apply Hfault.
  - rewrite Hs'. reflexivity.
Qed.

(** An answer other than 201 comes with the store untouched. *)
Lemma createOrder_rollback env userId req db resp db' :
  createOrder env userId req db = (resp, db') ->
  code resp <> 201%nat ->
  db' = db.
Proof.
  unfold createOrder. intros H Hcode.
  destruct (validate req); cbn [negb] in *; [|by injection H as <- <-].
  destruct (address_findFirst db (addressId req) userId); [|by injection H as <- <-].
  destruct (price_items db (items req) (JSNumber.of_Z 0) []) as [r|[subtotal ois]];
    [by injection H as <- <-|].
  destruct (transaction _ db) as [[o|] db1] eqn:Htx; injection H as <- <-.
  - by simpl in Hcode.
  - by apply transaction_rollback in Htx.
Qed.

(** C2: a [createOrder] that does not answer 201 leaves the store exactly
    as it was: no order, no order line, no stock change. The answer is then
    400, 404 or 500; the 400 and 404 answers are decided by reads alone, so
    they do not depend on the clock, the random source, the generated key
    or the fault plan; the 500 answer is a rolled-back transaction. *)
Theorem createOrder_all_or_nothing
    (env : Env) (userId : string) (req : Request) (db : Db)
    (resp : Response) (db' : Db) :
  createOrder env userId req db = (resp, db') ->
  code resp <> 201%nat ->
  db' = db /\
  (code resp = 400%nat \/ code resp = 404%nat \/ code resp = 500%nat) /\
  (code resp <> 500%nat -> forall env2, createOrder env2 userId req db = (resp, db)).
Proof.
  unfold createOrder. intros H Hcode.
  destruct (validate req); cbn [negb] in *;
    [|injection H as <- <-; simpl; split; [done|]; split; [by left | done]].
  destruct (address_findFirst db (addressId req) userId);
    [|injection H as <- <-; simpl; split; [done|]; split; [by right; left | done]].
  destruct (price_items db (items req) (JSNumber.of_Z 0) []) as [r|[subtotal ois]] eqn:Hp.
  { injection H as <- <-. apply price_items_inl in Hp.
    split; [done|]. split; [by left | done]. }
  destruct (transaction _ db) as [[o|] db1] eqn:Htx; injection H as <- <-.
  - by simpl in Hcode.
  - apply transaction_rollback in Htx as ->. simpl.
    split; [done|]. split; [by right; right | done].
Qed.

(** The failing statement here is the first stock update, after the order
    and its line were written inside the transaction. *)
Lemma createOrder_all_or_nothing_witness :
  let env := {| now := 1700000000000; random := JSNumber.lit_0_18;
                newId := "o1"; fault := Demo.fault_at 1 |} in
  let r := createOrder env "u1" (Demo.request [Demo.line 3]) Demo.db0 in
  code r.1 = 500%nat /\
  r.2 = Demo.db0 /\
  (code r.1 = 400%nat \/ code r.1 = 404%nat \/ code r.1 = 500%nat) /\
  (code r.1 <> 500%nat ->
   forall env2, createOrder env2 "u1" (Demo.request [Demo.line 3]) Demo.db0 = (r.1, Demo.db0)).
Proof.
  intros env r. split; [vm_compute; reflexivity|].
  apply (createOrder_all_or_nothing env "u1" (Demo.request [Demo.line 3]) Demo.db0 r.1 r.2).
  - apply surjective_pairing.
  - vm_compute. discriminate.
Defined.

(** *** Pricing *)

Lemma same_eq (x y : JSNumber.number) : JSNumber.same x y = true -> x = y.
Proof.
  destruct x as [a|a| |a m e], y as [b|b| |b m' e']; simpl; try discriminate.
  - by intros ->%Bool.eqb_prop.
  - by intros ->%Bool.eqb_prop.
  - done.
  - intros [[->%Bool.eqb_prop ->%Pos.eqb_eq]%andb_true_iff ->%Z.eqb_eq]%andb_true_iff.
    done.
Qed.

Lemma all_below_spec n p :
  all_below n p = true -> forall k, 0 <= k < Z.of_nat n -> p k = true.
Proof.
  induction n as [|n IH]; intros H k Hk; [lia|].
  cbn [all_below] in H. apply andb_true_iff in H as [Hn Hrest].
  destruct (decide (k = Z.of_nat n)) as [->|]; [done|].
  apply IH; [done | lia].
Qed.

(** On a whole-number subtotal below 1000 the tax is the double nearest to
    the exact value [18 n / 100]. *)
Lemma taxAmount_whole_subtotal (n : Z) :
  0 <= n < 1000 ->
  taxAmount_of (JSNumber.of_Z n)
  = JSNumber.div (JSNumber.of_Z (18 * n)) (JSNumber.of_Z 100).
Proof.
  intros Hn. apply same_eq.
  apply (all_below_spec 1000 tax_is_exact); [vm_compute; reflexivity | lia].
Qed.

(** The rounding is that of binary64: [1.25 * 0.18] is the double
    0.22499999999999998, so the tax on 1.25 is 0.22. *)
Remark taxAmount_binary64_tie :
  taxAmount_of (JSNumber.div (JSNumber.of_Z 5) (JSNumber.of_Z 4))
  = JSNumber.div (JSNumber.of_Z 22) (JSNumber.of_Z 100).
Proof. vm_compute. reflexivity. Qed.


(** The literal [0.18] is the double [0x1.70a3d70a3d70ap-3]. *)
Lemma lit_0_18_bits :
  JSNumber.lit_0_18 = S754_finite false 0x170a3d70a3d70a (-55).
Proof. vm_compute. reflexivity. Qed.



(** *** Sale prices *)

Lemma same_but_salePrice_lookup db1 db2 pid :
  same_but_salePrice db1 db2 ->
  match products db1 !! pid, products db2 !! pid with
  | Some p1, Some p2 =>
      p_name p1 = p_name p2 /\ price p1 = price p2 /\
      stock p1 = stock p2 /\ isActive p1 = isActive p2
  | None, None => True
  | _, _ => False
  end.
Proof.
  intros (_ & _ & H). specialize (H pid).
  destruct (products db1 !! pid) as [[]|], (products db2 !! pid) as [[]|];
    simpl in *; try done.
  by injection H as -> -> -> ->.
Qed.

Lemma price_items_salePrice db1 db2 its : forall s acc,
  same_but_salePrice db1 db2 ->
  price_items db1 its s acc = price_items db2 its s acc.
Proof.
  induction its as [|item its IH]; intros s acc Hsame; [done|].
  cbn [price_items]. unfold product_findUnique.
  pose proof (same_but_salePrice_lookup _ _ (productId item) Hsame) as Hl.
  destruct (products db1 !! productId item) as [p1|],
           (products db2 !! productId item) as [p2|]; try done.
  destruct Hl as (-> & -> & -> & ->).
  destruct (isActive p2); [|done]. cbn [negb].
  destruct (stock p2 <? quantity item); [done|].
  by apply IH.
Qed.

Lemma stock_loop_salePrice {A} (key : A -> string) (qty : A -> Z) fault (l : list A) :
  forall s1 s2,
    tx_count s1 = tx_count s2 ->
    same_but_salePrice (tx_db s1) (tx_db s2) ->
    match
      tx_for_each
        (fun x => Store.tx_bind
                    (tx_statement fault (product_decrement_stock (key x) (qty x)))
                    (fun _ => tx_ret tt)) l s1,
      tx_for_each
        (fun x => Store.tx_bind
                    (tx_statement fault (product_decrement_stock (key x) (qty x)))
                    (fun _ => tx_ret tt)) l s2
    with
    | Some (_, s1'), Some (_, s2') => same_but_salePrice (tx_db s1') (tx_db s2')
    | None, None => True
    | _, _ => False
    end.
Proof.
  induction l as [|x l IH]; intros s1 s2 Hc Hsame; [exact Hsame|].
  rewrite !tx_for_each_cons, !tx_statement_unit, Hc.
  destruct (fault (tx_count s2)); [done|].
  unfold product_decrement_stock.
  pose proof (same_but_salePrice_lookup _ _ (key x) Hsame) as Hl.
  destruct (products (tx_db s1) !! key x) as [p1|] eqn:E1,
           (products (tx_db s2) !! key x) as [p2|] eqn:E2; try done.
  apply IH; [done|].
  destruct Hsame as (Ha & Ho & Hp). destruct Hl as (Hn & Hpr & Hst & Hact).
  split; [done|]. split; [done|]. intros pid. cbn [tx_db set_products products].
  rewrite !lookup_insert. case_decide; [|apply Hp].
  simpl. unfold set_salePrice, set_stock. simpl. by rewrite Hn, Hpr, Hst, Hact.
Qed.

Lemma createOrder_tx_salePrice env data its db1 db2 :
  same_but_salePrice db1 db2 ->
  (transaction (createOrder_tx env data its) db1).1
  = (transaction (createOrder_tx env data its) db2).1 /\
  same_but_salePrice
    (transaction (createOrder_tx env data its) db1).2
    (transaction (createOrder_tx env data its) db2).2.
Proof.
  intros Hsame. unfold transaction. rewrite !createOrder_tx_unfold.
  cbn [tx_count tx_db]. destruct (fault env 0); [done|].
  unfold order_create, orderNumber_taken.
  pose proof Hsame as (Ha & Ho & Hp). rewrite Ho.
  destruct (orders db2 !! newId env); [done|].
  destruct (bool_decide _); [done|].
  match goal with
  | |- context [tx_for_each ?f ?l ?s1] =>
      match goal with
      | |- context [tx_for_each f l ?s2] =>
          lazymatch s2 with
          | s1 => fail
          | _ => pose proof (stock_loop_salePrice productId quantity (fault env) l s1 s2
                               eq_refl) as Hloop
          end
      end
  end.
  cbn [tx_db] in Hloop.
  lapply Hloop; [clear Hloop; intros Hloop|].
  2:{ split; [done|]. split; [cbn; by rewrite Ho | done]. }
  repeat match type of Hloop with
         | context [tx_for_each ?f ?l ?s] => destruct (tx_for_each f l s) as [[[] ?]|]
         end; done.
Qed.

(** C10: [createOrder] never reads [salePrice]. On two stores that differ
    at most in the sale prices of their products it gives the same answer
    (the same order, unit prices, and totals) and leaves stores that again
    differ at most in sale prices; and in an order it creates, every line
    carries the [price] of its product row, also when a sale price is set. *)
Theorem createOrder_ignores_salePrice
    (env : Env) (userId : string) (req : Request) (db1 db2 : Db) :
  same_but_salePrice db1 db2 ->
  (createOrder env userId req db1).1 = (createOrder env userId req db2).1 /\
  same_but_salePrice (createOrder env userId req db1).2 (createOrder env userId req db2).2 /\
  forall msg o,
    (createOrder env userId req db1).1 = mkResponse 201 (MessageOrder msg o) ->
    Forall2
      (fun item oi =>
         exists p, products db1 !! productId item = Some p /\
                   oi_price oi = price p /\ oi_quantity oi = quantity item)
      (items req) (orderItems o).
Proof.
  intros Hsame.
  assert (Hboth :
    (createOrder env userId req db1).1 = (createOrder env userId req db2).1 /\
    same_but_salePrice (createOrder env userId req db1).2
                       (createOrder env userId req db2).2).
  { unfold createOrder. destruct (validate req); [|done]. cbn [negb].
    unfold address_findFirst. pose proof Hsame as (Ha & Ho & Hp). rewrite Ha.
    destruct (addresses db2 !! addressId req) as [a|]; [|done].
    destruct (bool_decide (a_userId a = userId)); [|done].
    rewrite (price_items_salePrice db1 db2) by done.
    destruct (price_items db2 (items req) (JSNumber.of_Z 0) []) as [r|[st ois]]; [done|].
    match goal with
    | |- context [transaction (createOrder_tx ?e ?d ?l) db1] =>
        destruct (createOrder_tx_salePrice e d l db1 db2 Hsame) as [H1 H2];
        destruct (transaction (createOrder_tx e d l) db1) as [[o1|] d1],
                 (transaction (createOrder_tx e d l) db2) as [[o2|] d2]
    end; simpl in *; try done.
    by injection H1 as ->. }
  destruct Hboth as [Hresp Hdb]. split; [done|]. split; [done|]. clear Hresp Hdb.
  intros msg o Hresp.
  destruct (createOrder env userId req db1) as [resp db'] eqn:E. simpl in Hresp.
  subst resp.
  destruct (createOrder_created _ _ _ _ _ _ E eq_refl)
    as (ps & o' & [= _ ->] & _ & _ & HF & Ho & _).
  rewrite Ho. cbn [orderItems]. clear Ho E.
  induction HF as [|item p its ps (Hp & _) HF IH]; [constructor|].
  cbn [zip_with]. constructor; [|exact IH]. by exists p.
Qed.

Lemma same_but_salePrice_fmap db1 db2 :
  addresses db1 = addresses db2 ->
  orders db1 = orders db2 ->
  set_salePrice None <$> products db1 = set_salePrice None <$> products db2 ->
  same_but_salePrice db1 db2.
Proof.
  intros Ha Ho Hp. split; [done|]. split; [done|]. intros pid.
  by rewrite <- !lookup_fmap, Hp.
Qed.

Lemma createOrder_ignores_salePrice_witness :
  let db2 := set_products (fmap (set_salePrice None)) Demo.db0 in
  let req := Demo.request [Demo.line 3] in
  same_but_salePrice Demo.db0 db2 /\
  (createOrder Demo.env0 "u1" req Demo.db0).1 = (createOrder Demo.env0 "u1" req db2).1 /\
  same_but_salePrice (createOrder Demo.env0 "u1" req Demo.db0).2
                     (createOrder Demo.env0 "u1" req db2).2 /\
  forall msg o,
    (createOrder Demo.env0 "u1" req Demo.db0).1 = mkResponse 201 (MessageOrder msg o) ->
    Forall2
      (fun item oi =>
         exists p, products Demo.db0 !! productId item = Some p /\
                   oi_price oi = price p /\ oi_quantity oi = quantity item)
      (items req) (orderItems o).
Proof.
  intros db2 req.
  assert (H : same_but_salePrice Demo.db0 db2).
  { apply same_but_salePrice_fmap; vm_compute; reflexivity. }
  split; [exact H|].
  exact (createOrder_ignores_salePrice Demo.env0 "u1" req Demo.db0 db2 H).
Defined.

(** *** Quantities *)

Lemma lines_of_zip its ps db :
  Forall2 (line_ok db) its ps ->
  map (fun oi => (oi_productId oi, oi_quantity oi)) (zip_with orderItem_of its ps)
  = lines_of_items its.
Proof.
  induction 1 as [|item p its ps _ _ IH]; [done|].
  cbn [zip_with map lines_of_items]. f_equal. exact IH.
Qed.

(** C8: nothing in [createOrder] asks a quantity to be positive. Whatever
    the request, it passes the validators as soon as it has a line, an
    address id and a payment method; a line whose quantity is zero or
    negative passes the stock check of any product with non-negative stock;
    an order that is created stores every line with the quantity requested,
    and moves the stock by the requested total; and a request made of one
    such line on an active product is created when the address belongs to
    the user and the commit does not fail, so that a negative quantity
    leaves the stock higher than it was. *)
Theorem createOrder_accepts_nonpositive_quantity
    (env : Env) (userId : string) (req : Request) (db : Db)
    (item : Item) (p : Product) :
  item ∈ items req ->
  quantity item <= 0 ->
  products db !! productId item = Some p ->
  0 <= stock p ->
  addressId req <> "" ->
  req_paymentMethod req <> "" ->
  validate req = true /\
  (stock p <? quantity item) = false /\
  (forall resp db',
     createOrder env userId req db = (resp, db') ->
     code resp = 201%nat ->
     exists o,
       resp = mkResponse 201 (MessageOrder "Order created successfully" o) /\
       lines_of_order o = lines_of_items (items req) /\
       (productId item, quantity item) ∈ lines_of_order o /\
       stock_of db' (productId item)
         = Some (stock p - line_total (productId item) (lines_of_items (items req)))) /\
  (items req = [item] ->
   isActive p = true ->
   is_Some (address_findFirst db (addressId req) userId) ->
   (forall n, fault env n = false) ->
   orders db !! newId env = None ->
   orderNumber_taken db (generate_orderNumber env) = false ->
   exists o db',
     createOrder env userId req db
       = (mkResponse 201 (MessageOrder "Order created successfully" o), db') /\
     orderItems o = [orderItem_of item p] /\
     stock_of db' (productId item) = Some (stock p - quantity item) /\
     stock p <= stock p - quantity item /\
     (quantity item < 0 -> stock p < stock p - quantity item)).
Proof.
  intros Hin Hq Hp Hst Haddr Hpm.
  assert (Hv : validate req = true).
  { unfold validate. rewrite !bool_decide_eq_false_2 by done.
    destruct (items req); [by apply elem_of_nil in Hin | done]. }
  assert (Hcheck : (stock p <? quantity item) = false) by (apply Z.ltb_ge; lia).
  split; [done|]. split; [done|]. split.
  - intros resp db' H Hcode.
    destruct (createOrder_created _ _ _ _ _ _ H Hcode)
      as (ps & o & -> & _ & _ & HF & Ho & _ & _ & _ & Hl).
    exists o. split; [done|].
    assert (Hlines : lines_of_order o = lines_of_items (items req)).
    { unfold lines_of_order. rewrite Ho. cbn [orderItems]. by eapply lines_of_zip. }
    split; [done|]. split.
    + rewrite Hlines. unfold lines_of_items.
      apply (list_elem_of_fmap_2 (fun it => (productId it, quantity it))), Hin.
    + unfold stock_of. by rewrite Hl, Hp.
  - intros Hitems Hact Ha Hfault Hfresh Hnum.
    assert (HF : Forall2 (line_ok db) (items req) [p]).
    { rewrite Hitems. by repeat constructor. }
    destruct (createOrder env userId req db) as [resp db'] eqn:E.
    pose proof (createOrder_succeeds env userId req db [p] Hv Ha HF Hfault Hfresh Hnum)
      as Hcode.
    rewrite E in Hcode. simpl in Hcode.
    destruct (createOrder_created _ _ _ _ _ _ E Hcode)
      as (ps & o & -> & _ & _ & HF' & Ho & _ & _ & _ & Hl).
    exists o, db'. split; [done|].
    assert (ps = [p]) as ->.
    { rewrite Hitems in HF'.
      apply Forall2_cons_inv_l in HF' as (p' & ps' & (Hp' & _) & Hnil & ->).
      apply Forall2_nil_inv_l in Hnil as ->. congruence. }
    split; [by rewrite Ho, Hitems|].
    split; [|lia].
    unfold stock_of. rewrite Hl, Hp, Hitems. simpl.
    rewrite bool_decide_eq_true_2 by done. f_equal. lia.
Qed.

Lemma createOrder_accepts_nonpositive_quantity_witness :
  exists o db',
    createOrder Demo.env0 "u1" (Demo.request [Demo.line (-2)]) Demo.db0
      = (mkResponse 201 (MessageOrder "Order created successfully" o), db') /\
    orderItems o = [orderItem_of (Demo.line (-2)) Demo.cotton] /\
    stock_of db' "p1" = Some (10 - -2) /\
    10 <= 10 - -2 /\
    (-2 < 0 -> 10 < 10 - -2).
Proof.
  refine (proj2 (proj2 (proj2
    (createOrder_accepts_nonpositive_quantity Demo.env0 "u1"
       (Demo.request [Demo.line (-2)]) Demo.db0 (Demo.line (-2)) Demo.cotton
       _ _ _ _ _ _))) _ _ _ _ _ _).
  - apply list_elem_of_singleton. reflexivity.
  - vm_compute. discriminate.
  - vm_compute. reflexivity.
  - vm_compute. discriminate.
  - discriminate.
  - discriminate.
  - reflexivity.
  - reflexivity.
  - vm_compute. eauto.
  - reflexivity.
  - vm_compute. reflexivity.
  - vm_compute. reflexivity.
Defined.

(** *** Cancellation *)

Lemma tx_for_each_ext {A} (f g : A -> Tx unit) l :
  (forall x s, f x s = g x s) ->
  forall s, tx_for_each f l s = tx_for_each g l s.
Proof.
  intros Hfg. induction l as [|x l IH]; intros s; [done|].
  rewrite !tx_for_each_cons, Hfg. destruct (g x s) as [[[] s']|]; [apply IH | done].
Qed.

Lemma cancelOrder_tx_unfold fault id order s :
  cancelOrder_tx fault id order s
  = if fault (tx_count s) then None
    else match order_update_status id CANCELLED (tx_db s) with
         | None => None
         | Some (_, db1) =>
             tx_for_each
               (fun oi =>
                  Store.tx_bind
                    (tx_statement fault
                       (product_decrement_stock (oi_productId oi) (- oi_quantity oi)))
                    (fun _ => tx_ret tt))
               (orderItems order) {| tx_db := db1; tx_count := S (tx_count s) |}
         end.
Proof.
  unfold cancelOrder_tx, tx_bind at 1, tx_statement at 1.
  destruct (fault (tx_count s)); [done|].
  destruct (order_update_status _ _ _) as [[o db1]|]; [|done].
  apply tx_for_each_ext. intros x s'.
  rewrite !tx_statement_unit. by rewrite product_increment_as_decrement.
Qed.

Lemma line_total_opp {A} (key : A -> string) (qty : A -> Z) pid (l : list A) :
  line_total pid (map (fun x => (key x, - qty x)) l)
  = - line_total pid (map (fun x => (key x, qty x)) l).
Proof.
  induction l as [|x l IH]; [done|]. cbn [map line_total]. rewrite IH.
  case_bool_decide; lia.
Qed.

Lemma order_findFirst_Some db id userId st o :
  order_findFirst db id userId st = Some o <->
  orders db !! id = Some o /\ o_userId o = userId /\ status o = st.
Proof.
  unfold order_findFirst. destruct (orders db !! id) as [o'|].
  - do 2 case_bool_decide; simpl; split.
    all: try (intros [= ->]; done).
    all: try (intros ([= ->] & ? & ?); done).
    all: try discriminate.
  - split; [discriminate | intros ([=] & _)].
Qed.

Lemma order_findFirst_None db id userId st :
  order_findFirst db id userId st = None <->
  ~ exists o, orders db !! id = Some o /\ o_userId o = userId /\ status o = st.
Proof.
  split.
  - intros H (o & Ho). apply order_findFirst_Some in Ho. congruence.
  - intros H. destruct (order_findFirst db id userId st) as [o|] eqn:E; [|done].
    apply order_findFirst_Some in E. exfalso. apply H. eauto.
Qed.

(** An answer other than 200 comes with the store untouched. *)
Lemma cancelOrder_rollback fault userId id db :
  code (cancelOrder fault userId id db).1 <> 200%nat ->
  (cancelOrder fault userId id db).2 = db.
Proof.
  unfold cancelOrder.
  destruct (order_findFirst db id userId PENDING) as [o|]; [|done].
  destruct (transaction _ db) as [[[]|] db1] eqn:Htx; simpl; [done|].
  intros _. by apply transaction_rollback in Htx.
Qed.

(** A cancellation that gets through its lookup and whose statements do
    not fail. *)
Lemma cancelOrder_commits fault userId id db o :
  orders db !! id = Some o ->
  o_userId o = userId ->
  status o = PENDING ->
  (forall oi, oi ∈ orderItems o -> is_Some (products db !! oi_productId oi)) ->
  (forall n, fault n = false) ->
  exists db',
    cancelOrder fault userId id db
      = (mkResponse 200 (Message "Order cancelled successfully"), db') /\
    orders db' = <[id := set_status CANCELLED o]> (orders db) /\
    addresses db' = addresses db /\
    forall pid,
      stock_of db' pid = (fun n => n + line_total pid (lines_of_order o)) <$> stock_of db pid.
Proof.
  intros Ho Hu Hs Hk Hfault.
  unfold cancelOrder.
  rewrite (proj2 (order_findFirst_Some db id userId PENDING o)) by done.
  unfold transaction. rewrite cancelOrder_tx_unfold. cbn [tx_count tx_db].
  rewrite Hfault. unfold order_update_status. rewrite Ho.
  match goal with
  | |- context [tx_for_each ?f ?l ?s] =>
      destruct (stock_loop_succeeds oi_productId (fun oi => - oi_quantity oi) fault l s)
        as [s' Hs']
  end; [done | intros; apply Hfault |].
  rewrite Hs'.
  apply (stock_loop_result oi_productId (fun oi => - oi_quantity oi)) in Hs'
    as (Ha & Ho' & _ & Hl).
  cbn [tx_db set_orders orders addresses products] in *.
  eexists. split; [reflexivity|]. split; [done|]. split; [done|].
  intros pid. unfold stock_of. rewrite Hl.
  destruct (products db !! pid) as [p|]; [|done]. simpl. f_equal.
  rewrite (line_total_opp oi_productId oi_quantity). unfold lines_of_order. lia.
Qed.

(** C4: [cancelOrder] answers 200 only for an order that exists, belongs to
    the caller and is PENDING; in every other case it answers the one 404
    message, whatever the reason. When the lookup succeeds, the products of
    the order's lines exist and no statement fails, it answers 200, sets the
    status to CANCELLED and adds to each product's stock the quantity of its
    lines, and a second cancellation of the same order answers 404. Any
    answer other than 200 leaves the store as it was. An order of 3 units
    against a stock of 10 leaves 7, and cancelling it restores 10. *)
Theorem cancelOrder_contract (fault : nat -> bool) (userId id : string) (db : Db) :
  let cancellable :=
    exists o, orders db !! id = Some o /\ o_userId o = userId /\ status o = PENDING in
  (~ cancellable ->
   cancelOrder fault userId id db
     = (mkResponse 404 (Message "Order not found or cannot be cancelled"), db)) /\
  (code (cancelOrder fault userId id db).1 = 200%nat -> cancellable) /\
  (code (cancelOrder fault userId id db).1 <> 200%nat ->
   (cancelOrder fault userId id db).2 = db) /\
  (forall o,
     orders db !! id = Some o -> o_userId o = userId -> status o = PENDING ->
     (forall oi, oi ∈ orderItems o -> is_Some (products db !! oi_productId oi)) ->
     (forall n, fault n = false) ->
     exists db',
       cancelOrder fault userId id db
         = (mkResponse 200 (Message "Order cancelled successfully"), db') /\
       orders db' = <[id := set_status CANCELLED o]> (orders db) /\
       status_of db' id = Some CANCELLED /\
       (forall pid,
          stock_of db' pid
            = (fun n => n + line_total pid (lines_of_order o)) <$> stock_of db pid) /\
       forall fault2,
         cancelOrder fault2 userId id db'
           = (mkResponse 404 (Message "Order not found or cannot be cancelled"), db')) /\
  (let r1 := createOrder Demo.env0 "u1" (Demo.request [Demo.line 3]) Demo.db0 in
   let r2 := cancelOrder no_fault "u1" "o1" r1.2 in
   let r3 := cancelOrder no_fault "u1" "o1" r2.2 in
   stock_of Demo.db0 "p1" = Some 10 /\
   code r1.1 = 201%nat /\ stock_of r1.2 "p1" = Some 7 /\
   status_of r1.2 "o1" = Some PENDING /\
   code r2.1 = 200%nat /\ stock_of r2.2 "p1" = Some 10 /\
   status_of r2.2 "o1" = Some CANCELLED /\
   r3.1 = mkResponse 404 (Message "Order not found or cannot be cancelled") /\
   stock_of r3.2 "p1" = Some 10 /\ status_of r3.2 "o1" = Some CANCELLED).
Proof.
  intros cancellable.
  assert (Hnone : ~ cancellable ->
            cancelOrder fault userId id db
            = (mkResponse 404 (Message "Order not found or cannot be cancelled"), db)).
  { intros Hn. unfold cancelOrder.
    by rewrite (proj2 (order_findFirst_None db id userId PENDING) Hn). }
  split; [exact Hnone|]. split; [|split; [|split]].
  - intros Hcode. unfold cancelOrder in Hcode.
    destruct (order_findFirst db id userId PENDING) as [o|] eqn:E; [|discriminate].
    apply order_findFirst_Some in E. by exists o.
  - apply cancelOrder_rollback.
  - intros o Ho Hu Hs Hk Hfault.
    destruct (cancelOrder_commits fault userId id db o Ho Hu Hs Hk Hfault)
      as (db' & E & Hord & _ & Hstock).
    exists db'. split; [done|]. split; [done|].
    assert (Hst : status_of db' id = Some CANCELLED).
    { unfold status_of. by rewrite Hord, lookup_insert_eq. }
    split; [done|]. split; [done|].
    intros fault2. unfold cancelOrder.
    rewrite (proj2 (order_findFirst_None db' id userId PENDING)); [done|].
    intros (o' & Ho' & _ & Hs'). unfold status_of in Hst. rewrite Ho' in Hst.
    simpl in Hst. congruence.
  - vm_compute. repeat split.
Qed.

Lemma cancelOrder_contract_witness :
  let db1 := (createOrder Demo.env0 "u1" (Demo.request [Demo.line 3]) Demo.db0).2 in
  exists o db',
    orders db1 !! "o1" = Some o /\
    cancelOrder no_fault "u1" "o1" db1
      = (mkResponse 200 (Message "Order cancelled successfully"), db') /\
    status_of db' "o1" = Some CANCELLED /\
    stock_of db' "p1" = Some 10 /\
    cancelOrder no_fault "u1" "o1" db'
      = (mkResponse 404 (Message "Order not found or cannot be cancelled"), db').
Proof.
  intros db1.
  destruct (orders db1 !! "o1") as [o|] eqn:Ho; [|vm_compute in Ho; discriminate].
  assert (Hval : o = {| orderNumber := generate_orderNumber Demo.env0;
                        o_userId := "u1"; o_addressId := "a1"; status := PENDING;
                        totalAmount := totalAmount_of (JSNumber.of_Z 300);
                        shippingCost := shippingCost_of (JSNumber.of_Z 300);
                        taxAmount := taxAmount_of (JSNumber.of_Z 300);
                        paymentMethod := "COD"; notes := None;
                        orderItems := [orderItem_of (Demo.line 3) Demo.cotton] |}).
  { vm_compute in Ho. injection Ho as <-. vm_compute. reflexivity. }
  destruct (proj1 (proj2 (proj2 (proj2
              (cancelOrder_contract no_fault "u1" "o1" db1)))) o Ho)
    as (db' & E & _ & Hst & Hstock & Hagain).
  - by rewrite Hval.
  - by rewrite Hval.
  - intros oi Hoi. rewrite Hval in Hoi. apply list_elem_of_singleton in Hoi as ->.
    vm_compute. eauto.
  - reflexivity.
  - exists o, db'. split; [reflexivity|]. split; [exact E|]. split; [exact Hst|].
    split; [|apply Hagain].
    rewrite Hstock, Hval. vm_compute. reflexivity.
Defined.

(** *** Order status *)

Lemma cancelOrder_200 fault userId id db resp db' :
  cancelOrder fault userId id db = (resp, db') ->
  code resp = 200%nat ->
  exists o,
    orders db !! id = Some o /\ o_userId o = userId /\ status o = PENDING /\
    orders db' = <[id := set_status CANCELLED o]> (orders db).
Proof.
  unfold cancelOrder. intros H Hcode.
  destruct (order_findFirst db id userId PENDING) as [o|] eqn:E;
    [|injection H as <- <-; discriminate].
  apply order_findFirst_Some in E as (Ho & Hu & Hs).
  unfold transaction in H. rewrite cancelOrder_tx_unfold in H. cbn [tx_count tx_db] in H.
  destruct (fault O); [injection H as <- <-; discriminate|].
  unfold order_update_status in H. rewrite Ho in H.
  match type of H with
  | context [tx_for_each ?f ?l ?s] => destruct (tx_for_each f l s) as [[[] s']|] eqn:Hloop
  end; [|injection H as <- <-; discriminate].
  injection H as <- <-.
  apply (stock_loop_result oi_productId (fun oi => - oi_quantity oi)) in Hloop
    as (_ & Ho' & _).
  exists o. by rewrite Ho'.
Qed.

(** C6, as the code has it: [createOrder] changes the status of no stored
    order; [cancelOrder] changes a status only from PENDING to CANCELLED and
    only for the order's owner; the admin [updateOrderStatus] sets the
    status it is given whatever the current one, so it also leads out of
    CANCELLED and into CANCELLED from any status. *)
Theorem order_status_transitions (db : Db) (op : Op) (id : string) (o : Order) :
  orders db !! id = Some o ->
  match op with
  | OpCreateOrder _ _ _ => status_of (step db op) id = Some (status o)
  | OpCancelOrder fault userId id' =>
      status_of (step db op) id = Some (status o) \/
      (id' = id /\ o_userId o = userId /\ status o = PENDING /\
       status_of (step db op) id = Some CANCELLED)
  | OpUpdateOrderStatus fault id' s' =>
      status_of (step db op) id
      = if bool_decide (id' = id) && negb (fault O) then Some s' else Some (status o)
  end.
Proof.
  intros Ho. assert (Hst : status_of db id = Some (status o)).
  { unfold status_of. by rewrite Ho. }
  destruct op as [env userId req | fault userId id' | fault id' s']; cbn [step].
  - destruct (createOrder env userId req db) as [resp db'] eqn:E. cbn [snd].
    destruct (decide (code resp = 201%nat)) as [Hcode|Hcode].
    + destruct (createOrder_created _ _ _ _ _ _ E Hcode)
        as (ps & o' & _ & _ & _ & _ & _ & Hfresh & Hord & _).
      unfold status_of. rewrite Hord, lookup_insert_ne; [by rewrite Ho|].
      intros <-. congruence.
    + by rewrite (createOrder_rollback _ _ _ _ _ _ E Hcode).
  - destruct (cancelOrder fault userId id' db) as [resp db'] eqn:E. cbn [snd].
    destruct (decide (code resp = 200%nat)) as [Hcode|Hcode].
    + destruct (cancelOrder_200 _ _ _ _ _ _ E Hcode) as (o' & Ho' & Hu & Hs & Hord).
      unfold status_of. rewrite Hord.
      destruct (decide (id' = id)) as [->|Hne].
      * right. rewrite lookup_insert_eq. rewrite Ho in Ho'. injection Ho' as <-.
        done.
      * left. by rewrite lookup_insert_ne, Ho.
    + left. pose proof (cancelOrder_rollback fault userId id' db) as Hsame.
      rewrite E in Hsame. cbn [fst snd] in Hsame. by rewrite Hsame.
  - unfold updateOrderStatus, order_update_status.
    destruct (fault O); cbn [negb andb snd]; [by rewrite andb_false_r|].
    rewrite andb_true_r.
    destruct (orders db !! id') as [o'|] eqn:Ho'; cbn [snd].
    + unfold status_of. cbn [set_orders orders].
      case_bool_decide as Hid.
      * subst. by rewrite lookup_insert_eq.
      * by rewrite lookup_insert_ne, Ho.
    + case_bool_decide; [congruence | done].
Qed.

Lemma order_status_transitions_witness :
  let db1 := run [OpCreateOrder Demo.env0 "u1" (Demo.request [Demo.line 3]);
                  OpCancelOrder no_fault "u1" "o1"] Demo.db0 in
  let op := OpUpdateOrderStatus no_fault "o1" PENDING in
  exists o,
    orders db1 !! "o1" = Some o /\ status o = CANCELLED /\
    status_of (step db1 op) "o1"
    = if bool_decide ("o1" = "o1") && negb (no_fault O) then Some PENDING
      else Some (status o).
Proof.
  intros db1 op.
  destruct (orders db1 !! "o1") as [o|] eqn:Ho; [|vm_compute in Ho; discriminate].
  exists o. split; [done|]. split.
  - vm_compute in Ho. by injection Ho as <-.
  - exact (order_status_transitions db1 op "o1" o Ho).
Defined.

(** The admin route moves a cancelled order back to PENDING, and a shipped
    order to CANCELLED. *)
Lemma cancelled_status_not_protected :
  ~ cancelled_is_terminal /\ ~ cancelled_only_from_pending.
Proof.
  split.
  - intros H.
    specialize (H [OpUpdateOrderStatus no_fault "o1" PENDING]
                  (run [OpCreateOrder Demo.env0 "u1" (Demo.request [Demo.line 3]);
                        OpCancelOrder no_fault "u1" "o1"] Demo.db0)
                  "o1" ltac:(vm_compute; reflexivity)).
    vm_compute in H. discriminate.
  - intros H.
    specialize (H (OpUpdateOrderStatus no_fault "o1" CANCELLED)
                  (run [OpCreateOrder Demo.env0 "u1" (Demo.request [Demo.line 3]);
                        OpUpdateOrderStatus no_fault "o1" SHIPPED] Demo.db0)
                  "o1" SHIPPED ltac:(vm_compute; reflexivity)
                  ltac:(vm_compute; reflexivity)).
    destruct H; discriminate.
Qed.

(** *** Stock *)

Lemma line_total_absent pid lines :
  pid ∉ lines.*1 -> line_total pid lines = 0.
Proof.
  induction lines as [|[id q] lines IH]; [done|].
  cbn [fmap list_fmap fst line_total]. intros Hn.
  apply not_elem_of_cons in Hn as [Hne Hn].
  rewrite bool_decide_eq_false_2 by done. rewrite IH by done. lia.
Qed.

(** When no two lines name the same product, the check of each line does
    cover what the transaction takes: a created order leaves the stock of
    every product it names non-negative. *)
Lemma createOrder_distinct_lines_stock env userId req db resp db' item :
  createOrder env userId req db = (resp, db') ->
  code resp = 201%nat ->
  NoDup (lines_of_items (items req)).*1 ->
  item ∈ items req ->
  exists p,
    products db !! productId item = Some p /\
    quantity item <= stock p /\
    stock_of db' (productId item) = Some (stock p - quantity item).
Proof.
  intros H Hcode Hnd Hin.
  destruct (createOrder_created _ _ _ _ _ _ H Hcode)
    as (ps & o & _ & _ & _ & HF & _ & _ & _ & _ & Hl).
  assert (Hp : exists p, line_ok db item p).
  { apply list_elem_of_lookup in Hin as [i Hi].
    destruct (Forall2_lookup_l _ _ _ _ _ HF Hi) as (p & _ & Hp). eauto. }
  destruct Hp as (p & Hp & _ & Hs). exists p. split; [done|].
  apply Z.ltb_ge in Hs. split; [done|].
  unfold stock_of. rewrite Hl, Hp. simpl. do 2 f_equal.
  clear -Hnd Hin. induction (items req) as [|it its IH]; [by apply elem_of_nil in Hin|].
  change (lines_of_items (it :: its))
    with ((productId it, quantity it) :: lines_of_items its) in *.
  cbn [fmap list_fmap fst line_total] in *.
  apply NoDup_cons in Hnd as [Hnot Hnd].
  apply elem_of_cons in Hin as [->|Hin].
  - rewrite bool_decide_eq_true_2 by done.
    rewrite line_total_absent by done. lia.
  - rewrite bool_decide_eq_false_2.
    + rewrite IH by done. lia.
    + intros Heq. apply Hnot. rewrite Heq.
      change (productId item) with (productId item, quantity item).1.
      apply list_elem_of_fmap_2.
      apply (list_elem_of_fmap_2 (fun it => (productId it, quantity it))), Hin.
Qed.

(** C1 fails on a request that names one product in two lines: each line
    passes the check against the stored stock of 10, and the transaction
    then takes 6 twice. *)
Theorem createOrder_duplicate_lines_oversell :
  let r := createOrder Demo.env0 "u1" (Demo.request [Demo.line 6; Demo.line 6]) Demo.db0 in
  stock_of Demo.db0 "p1" = Some 10 /\
  code r.1 = 201%nat /\
  stock_of r.2 "p1" = Some (-2).
Proof. vm_compute. repeat split. Qed.

(** *** Order numbers *)

(** C5 fails when the random source returns a value whose radix-36
    expansion is short: 0.5 prints as ["0.i"] and leaves a suffix of one
    character, and 0 prints as ["0"] and leaves none. *)
Theorem orderNumber_suffix_short :
  JSNumber.in_unit_interval JSNumber.lit_0_5 = true /\
  JSString.toString36 JSNumber.lit_0_5 = "0.i" /\
  generate_orderNumber
    {| now := 1700000000000; random := JSNumber.lit_0_5; newId := "o1"; fault := no_fault |}
    = "ORD-1700000000000-I" /\
  String.length (orderNumber_suffix JSNumber.lit_0_5) = 1%nat /\
  JSNumber.in_unit_interval (JSNumber.of_Z 0) = true /\
  generate_orderNumber
    {| now := 1700000000000; random := JSNumber.of_Z 0; newId := "o1"; fault := no_fault |}
    = "ORD-1700000000000-" /\
  String.length (orderNumber_suffix (JSNumber.of_Z 0)) = 0%nat.
Proof. vm_compute. repeat split. Qed.

End OrderFacts.

(* ===================================================================== *)
(** ** Properties of the connection manager *)
(* ===================================================================== *)

Section ConnectionFacts.
Import Connection.
Local Open Scope nat_scope.

Lemma testConnection_ok up m w :
  up (clock w) = true ->
  testConnection up m w =
    (Return true, set_retries 0 (set_connected true m), (connect_and_query up w).2).
Proof.
  intros Hup. rewrite testConnection_equation_1.
  unfold connect_and_query. rewrite Hup. reflexivity.
Qed.

Lemma testConnection_retry up m w :
  up (clock w) = false ->
  connectionRetries m < maxRetries m ->
  testConnection up m w =
    testConnection up
      (set_retries (S (connectionRetries m)) (set_connected false m))
      (delay (2000 * S (connectionRetries m)) (connect_and_query up w).2).
Proof.
  intros Hup Hlt. rewrite testConnection_equation_1.
  unfold connect_and_query. rewrite Hup. simpl.
  destruct (lt_dec _ _) as [?|Hn]; [reflexivity | contradiction].
Qed.

Lemma testConnection_exhausted up m w :
  up (clock w) = false ->
  ~ connectionRetries m < maxRetries m ->
  testConnection up m w =
    (Throw, set_connected false m, (connect_and_query up w).2).
Proof.
  intros Hup Hge. rewrite testConnection_equation_1.
  unfold connect_and_query. rewrite Hup. simpl.
  destruct (lt_dec _ _) as [?|Hn]; [contradiction | reflexivity].
Qed.

Lemma testConnection_fail_then_ok k : forall up m w,
  (forall i, i < k -> up (clock w + i) = false) ->
  up (clock w + k) = true ->
  connectionRetries m + k <= maxRetries m ->
  testConnection up m w =
    (Return true,
     {| isConnected := true; connectionRetries := 0; maxRetries := maxRetries m |},
     {| clock := clock w + S k;
        trace := trace w ++ retry_events (connectionRetries m) k ++ [Attempt true] |}).
Proof.
  induction k as [|k IH]; intros up m w Hfail Hok Hle.
  - rewrite Nat.add_0_r in Hok. rewrite testConnection_ok by done.
    unfold connect_and_query; simpl. rewrite Hok.
    do 2 f_equal. lia.
  - assert (H0 : up (clock w) = false).
    { rewrite <- (Nat.add_0_r (clock w)). apply Hfail. lia. }
    rewrite testConnection_retry by (done || lia).
    rewrite IH; simpl.
    + rewrite H0. rewrite <- !app_assoc. simpl.
      do 2 f_equal. lia.
    + intros i Hi. rewrite <- Nat.add_succ_r. apply Hfail. lia.
    + rewrite <- Nat.add_succ_r. done.
    + lia.
Qed.

Lemma testConnection_all_fail k : forall up m w,
  connectionRetries m + k = maxRetries m ->
  (forall i, i <= k -> up (clock w + i) = false) ->
  testConnection up m w =
    (Throw,
     {| isConnected := false; connectionRetries := maxRetries m;
        maxRetries := maxRetries m |},
     {| clock := clock w + S k;
        trace := trace w ++ retry_events (connectionRetries m) k ++ [Attempt false] |}).
Proof.
  induction k as [|k IH]; intros up m w Hk Hfail.
  - assert (H0 : up (clock w) = false).
    { rewrite <- (Nat.add_0_r (clock w)). apply Hfail. lia. }
    rewrite testConnection_exhausted by (done || lia).
    unfold connect_and_query, set_connected; simpl. rewrite H0.
    f_equal; [f_equal; f_equal; lia | f_equal; lia].
  - assert (H0 : up (clock w) = false).
    { rewrite <- (Nat.add_0_r (clock w)). apply Hfail. lia. }
    rewrite testConnection_retry by (done || lia).
    rewrite IH; simpl.
    + rewrite H0. rewrite <- !app_assoc. simpl.
      do 2 f_equal. lia.
    + lia.
    + intros i Hi. rewrite <- Nat.add_succ_r. apply Hfail. lia.
Qed.

(** Within [n + 1] contacts starting at [base], either some contact is the
    first to succeed or all of them fail. *)
Lemma first_success_or_none (up : nat -> bool) (base n : nat) :
  (exists k, k <= n /\ (forall i, i < k -> up (base + i) = false) /\ up (base + k) = true)
  \/ (forall i, i <= n -> up (base + i) = false).
Proof.
  induction n as [|n [(k & Hk & Hf & Hs) | Hall]].
  - destruct (up (base + 0)) eqn:E.
    + left. exists 0. split; [lia|]. split; [intros; lia | done].
    + right. intros i Hi. replace i with 0 by lia. done.
  - left. exists k. split; [lia|]. split; done.
  - destruct (up (base + S n)) eqn:E.
    + left. exists (S n). split; [lia|]. split; [|done].
      intros i Hi. apply Hall. lia.
    + right. intros i Hi. destruct (decide (i = S n)) as [->|]; [done|].
      apply Hall. lia.
Qed.

Lemma attempts_in_retry_events c k b :
  attempts_in (retry_events c k ++ [Attempt b]) = S k.
Proof.
  revert c. induction k as [|k IH]; intros c; [reflexivity|].
  specialize (IH (S c)). unfold attempts_in in *.
  cbn [retry_events app List.filter is_attempt length] in *. lia.
Qed.

Lemma delays_in_retry_events c k b :
  delays_in (retry_events c k ++ [Attempt b]) = map (fun i => 2000 * (c + i)) (seq 1 k).
Proof.
  revert c. induction k as [|k IH]; intros c; [reflexivity|].
  cbn [retry_events app delays_in seq map].
  rewrite IH. f_equal; [f_equal; lia|].
  rewrite <- (seq_shift k 1), map_map. apply map_ext. intros; f_equal; lia.
Qed.

(** Every run of [testConnection] is one of the two runs above. *)
Lemma testConnection_run up m w :
  connectionRetries m <= maxRetries m ->
  exists k,
    connectionRetries m + k <= maxRetries m /\
    ((forall i, i < k -> up (clock w + i) = false) /\ up (clock w + k) = true /\
     testConnection up m w =
       (Return true,
        {| isConnected := true; connectionRetries := 0; maxRetries := maxRetries m |},
        {| clock := clock w + S k;
           trace := trace w ++ retry_events (connectionRetries m) k ++ [Attempt true] |})
     \/
     connectionRetries m + k = maxRetries m /\
     (forall i, i <= k -> up (clock w + i) = false) /\
     testConnection up m w =
       (Throw,
        {| isConnected := false; connectionRetries := maxRetries m;
           maxRetries := maxRetries m |},
        {| clock := clock w + S k;
           trace := trace w ++ retry_events (connectionRetries m) k ++ [Attempt false] |})).
Proof.
  intros Hle.
  destruct (first_success_or_none up (clock w) (maxRetries m - connectionRetries m))
    as [(k & Hk & Hf & Hs) | Hall].
  - exists k. split; [lia|]. left. split; [done|]. split; [done|].
    apply testConnection_fail_then_ok; [done | done | lia].
  - exists (maxRetries m - connectionRetries m). split; [lia|]. right.
    split; [lia|]. split; [done|].
    apply testConnection_all_fail; [lia | done].
Qed.

Lemma events_since_extend w c l :
  events_since w {| clock := c; trace := trace w ++ l |} = l.
Proof. unfold events_since. simpl. apply drop_app_length. Qed.

(** C7: from a retry counter [c <= 5] with bound 5, [testConnection] makes
    [k + 1] attempts with [k <= 5 - c] retries; the wait before the i-th
    retry is 2000 ms times the retry number [c + i]; it returns true with
    the counter reset to 0 at the first attempt that succeeds, and when
    every attempt fails it throws after the counter reached 5, which the
    startup code turns into exit status 1 and the request middleware into
    a 503 answer. *)
Theorem testConnection_bounded_backoff (up : nat -> bool) (m : Manager) (w : World) :
  maxRetries m = 5 ->
  connectionRetries m <= 5 ->
  exists (k : nat) (r : Outcome) (m' : Manager) (w' : World),
    testConnection up m w = (r, m', w') /\
    connectionRetries m + k <= 5 /\
    attempts_in (events_since w w') = S k /\
    delays_in (events_since w w')
      = map (fun i => 2000 * (connectionRetries m + i)) (seq 1 k) /\
    (forall i, i < k -> up (clock w + i) = false) /\
    ((up (clock w + k) = true /\ r = Return true /\
      connectionRetries m' = 0 /\ isConnected m' = true /\
      (initializeServer up m w).1.1 = Listening)
     \/
     (up (clock w + k) = false /\ connectionRetries m + k = 5 /\ r = Throw /\
      connectionRetries m' = 5 /\ isConnected m' = false /\
      (initializeServer up m w).1.1 = Exit 1 /\
      (isConnected m = false ->
       (ensureDbConnection up m w).1.1 = Unavailable 503 "DB_CONNECTION_ERROR"))).
Proof.
  intros Hmax Hc.
  destruct (testConnection_run up m w) as (k & Hk & [(Hf & Hs & E) | (Hx & Hall & E)]);
    [lia | |].
  - exists k. eexists _, _, _. split; [exact E|].
    rewrite events_since_extend, attempts_in_retry_events, delays_in_retry_events.
    split; [lia|]. split; [done|]. split; [done|]. split; [done|].
    left. unfold initializeServer. rewrite E. simpl. done.
  - exists k. eexists _, _, _. split; [exact E|].
    rewrite events_since_extend, attempts_in_retry_events, delays_in_retry_events.
    split; [lia|]. split; [done|]. split; [done|].
    split; [intros i Hi; apply Hall; lia|].
    right. rewrite (Hall k) by lia.
    unfold initializeServer, ensureDbConnection, healthCheck. rewrite E. simpl.
    repeat (split; [done || lia|]).
    intros ->. simpl. done.
Qed.

Lemma testConnection_bounded_backoff_witness :
  maxRetries new_manager = 5 /\
  connectionRetries new_manager <= 5 /\
  exists (k : nat) (r : Outcome) (m' : Manager) (w' : World),
    testConnection (fun n => 2 <=? n) new_manager (mkWorld 0 []) = (r, m', w') /\
    connectionRetries new_manager + k <= 5 /\
    attempts_in (events_since (mkWorld 0 []) w') = S k /\
    delays_in (events_since (mkWorld 0 []) w')
      = map (fun i => 2000 * (connectionRetries new_manager + i)) (seq 1 k) /\
    (forall i, i < k -> (2 <=? clock (mkWorld 0 []) + i) = false) /\
    (((2 <=? clock (mkWorld 0 []) + k) = true /\ r = Return true /\
      connectionRetries m' = 0 /\ isConnected m' = true /\
      (initializeServer (fun n => 2 <=? n) new_manager (mkWorld 0 [])).1.1 = Listening)
     \/
     ((2 <=? clock (mkWorld 0 []) + k) = false /\
      connectionRetries new_manager + k = 5 /\ r = Throw /\
      connectionRetries m' = 5 /\ isConnected m' = false /\
      (initializeServer (fun n => 2 <=? n) new_manager (mkWorld 0 [])).1.1 = Exit 1 /\
      (isConnected new_manager = false ->
       (ensureDbConnection (fun n => 2 <=? n) new_manager (mkWorld 0 [])).1.1
         = Unavailable 503 "DB_CONNECTION_ERROR"))).
Proof.
  split; [reflexivity|]. split; [simpl; lia|].
  apply (testConnection_bounded_backoff (fun n => 2 <=? n) new_manager (mkWorld 0 []));
    [reflexivity | simpl; lia].
Defined.

(** C9: once [testConnection] has thrown, the manager is disconnected with
    the counter at the bound 5. In that state every further
    [testConnection], also the one inside [healthCheck] and the one of the
    reconnect timer, makes exactly one attempt and no wait; when the attempt
    fails it throws and leaves the manager as it was (the counter stays 5),
    and when it succeeds it returns true with the counter back at 0. *)
Theorem exhausted_counter_stays_at_bound
    (up : nat -> bool) (m m' : Manager) (w w' : World) :
  maxRetries m = 5 ->
  connectionRetries m <= 5 ->
  testConnection up m w = (Throw, m', w') ->
  m' = {| isConnected := false; connectionRetries := 5; maxRetries := 5 |} /\
  forall (up2 : nat -> bool) (w2 : World),
    let w3 := {| clock := S (clock w2);
                 trace := trace w2 ++ [Attempt (up2 (clock w2))] |} in
    events_since w2 w3 = [Attempt (up2 (clock w2))] /\
    (up2 (clock w2) = false ->
       testConnection up2 m' w2 = (Throw, m', w3) /\
       healthCheck up2 m' w2 = (false, m', w3) /\
       autoReconnect_tick up2 m' w2 = (m', w3)) /\
    (up2 (clock w2) = true ->
       testConnection up2 m' w2
         = (Return true,
            {| isConnected := true; connectionRetries := 0; maxRetries := 5 |}, w3) /\
       autoReconnect_tick up2 m' w2
         = ({| isConnected := true; connectionRetries := 0; maxRetries := 5 |}, w3)).
Proof.
  intros Hmax Hc Hthrow.
  assert (Hm' : m' = {| isConnected := false; connectionRetries := 5; maxRetries := 5 |}).
  { destruct (testConnection_run up m w) as (k & Hk & [(_ & _ & E) | (_ & _ & E)]);
      [lia | |]; rewrite E in Hthrow; [discriminate|].
    injection Hthrow as <- _. by rewrite Hmax. }
  split; [exact Hm'|]. subst m'.
  intros up2 w2 w3. split; [apply events_since_extend|].
  split; intros Hup.
  - assert (E : testConnection up2
                  {| isConnected := false; connectionRetries := 5; maxRetries := 5 |} w2
                = (Throw, {| isConnected := false; connectionRetries := 5; maxRetries := 5 |}, w3)).
    { rewrite testConnection_exhausted by (done || simpl; lia).
      unfold connect_and_query. reflexivity. }
    split; [exact E|].
    unfold healthCheck, autoReconnect_tick. simpl. rewrite E. done.
  - assert (E : testConnection up2
                  {| isConnected := false; connectionRetries := 5; maxRetries := 5 |} w2
                = (Return true,
                   {| isConnected := true; connectionRetries := 0; maxRetries := 5 |}, w3)).
    { rewrite testConnection_ok by done. unfold connect_and_query. reflexivity. }
    split; [exact E|].
    unfold autoReconnect_tick. simpl. rewrite E. done.
Qed.

Lemma exhausted_counter_stays_at_bound_witness :
  let r := testConnection (fun _ => false) new_manager (mkWorld 0 []) in
  r.1.1 = Throw /\
  r.1.2 = {| isConnected := false; connectionRetries := 5; maxRetries := 5 |} /\
  testConnection (fun _ => false) r.1.2 r.2
    = (Throw, r.1.2,
       {| clock := S (clock r.2); trace := trace r.2 ++ [Attempt false] |}) /\
  healthCheck (fun _ => false) r.1.2 r.2
    = (false, r.1.2,
       {| clock := S (clock r.2); trace := trace r.2 ++ [Attempt false] |}).
Proof.
  intros r.
  assert (Hr : testConnection (fun _ => false) new_manager (mkWorld 0 [])
               = (Throw, r.1.2, r.2)) by reflexivity.
  destruct (exhausted_counter_stays_at_bound (fun _ => false) new_manager r.1.2
              (mkWorld 0 []) r.2 eq_refl ltac:(simpl; lia) Hr) as [Hm Hnext].
  split; [reflexivity|]. split; [exact Hm|].
  destruct (Hnext (fun _ => false) r.2) as (_ & Hfail & _).
  destruct (Hfail eq_refl) as (Ht & Hh & _).
  split; [exact Ht | exact Hh].
Defined.
End ConnectionFacts.

(* ===================================================================== *)
(** ** Further properties of the connection manager *)
(* ===================================================================== *)

Section ManagerFacts.
Import Connection.
Local Open Scope nat_scope.

(** What a run of [testConnection] leaves, whatever the counter was. *)
Lemma testConnection_post up : forall n m w,
  maxRetries m - connectionRetries m = n ->
  match testConnection up m w with
  | (Return b, m', _) =>
      b = true /\ isConnected m' = true /\ connectionRetries m' = 0 /\
      maxRetries m' = maxRetries m
  | (Throw, m', _) =>
      isConnected m' = false /\ maxRetries m' = maxRetries m /\
      connectionRetries m <= connectionRetries m' /\
      ~ connectionRetries m' < maxRetries m' /\
      (connectionRetries m <= maxRetries m -> connectionRetries m' = maxRetries m)
  end.
Proof.
  induction n as [n IH] using lt_wf_ind. intros m w Hn.
  destruct (up (clock w)) eqn:Hup.
  - rewrite testConnection_ok by done. simpl. done.
  - destruct (lt_dec (connectionRetries m) (maxRetries m)) as [Hlt|Hge].
    + rewrite testConnection_retry by done.
      specialize (IH (maxRetries m - S (connectionRetries m)) ltac:(lia)
                    (set_retries (S (connectionRetries m)) (set_connected false m))
                    (delay (2000 * S (connectionRetries m)) (connect_and_query up w).2)
                    eq_refl).
      destruct (testConnection _ _ _) as [[[b|] m'] w']; simpl in *; [done|].
      destruct IH as (? & ? & ? & ? & Hmax). repeat split; try done; try lia.
    + rewrite testConnection_exhausted by done. simpl.
      repeat split; try done; lia.
Qed.

(** X1: the boolean that [healthCheck] returns is the connection flag it
    leaves: true means the manager is marked connected, false that it is
    marked disconnected, whatever the state before and whatever the store
    does. *)
Theorem healthCheck_reports_flag (up : nat -> bool) (m : Manager) (w : World) :
  isConnected (healthCheck up m w).1.2 = (healthCheck up m w).1.1.
Proof.
  unfold healthCheck.
  destruct (isConnected m) eqn:Hc; cbn [negb].
  - unfold probe. destruct (up (clock w)); simpl; done.
  - pose proof (testConnection_post up _ m w eq_refl) as Hpost.
    destruct (testConnection up m w) as [[[b|] m1] w1]; simpl.
    + destruct Hpost as (_ & Hconn & _).
      unfold probe. destruct (up (clock w1)); simpl; done.
    + done.
Qed.

(** X2: the retry counter never passes the bound and the bound never
    changes: a manager with [connectionRetries <= maxRetries] keeps that
    through [testConnection], [healthCheck] and a firing of the reconnect
    timer. *)
Theorem retry_counter_bounded (up : nat -> bool) (m : Manager) (w : World) :
  connectionRetries m <= maxRetries m ->
  let after_test := (testConnection up m w).1.2 in
  let after_check := (healthCheck up m w).1.2 in
  let after_tick := (autoReconnect_tick up m w).1 in
  (connectionRetries after_test <= maxRetries after_test /\
   maxRetries after_test = maxRetries m) /\
  (connectionRetries after_check <= maxRetries after_check /\
   maxRetries after_check = maxRetries m) /\
  (connectionRetries after_tick <= maxRetries after_tick /\
   maxRetries after_tick = maxRetries m).
Proof.
  intros Hle. cbn zeta.
  assert (Htest : connectionRetries (testConnection up m w).1.2
                  <= maxRetries (testConnection up m w).1.2 /\
                  maxRetries (testConnection up m w).1.2 = maxRetries m).
  { pose proof (testConnection_post up _ m w eq_refl) as Hpost.
    destruct (testConnection up m w) as [[[b|] m1] w1]; simpl.
    - destruct Hpost as (_ & _ & -> & ->). split; [lia | done].
    - destruct Hpost as (_ & -> & _ & _ & Heq). split; [lia | done]. }
  split; [exact Htest|]. split.
  - unfold healthCheck. destruct (isConnected m); cbn [negb].
    + unfold probe. destruct (up (clock w)); simpl; done.
    + destruct (testConnection up m w) as [[[b|] m1] w1]; simpl in *; [|done].
      unfold probe. destruct (up (clock w1)); simpl; done.
  - unfold autoReconnect_tick. destruct (isConnected m); cbn [negb]; [done|].
    destruct (testConnection up m w) as [[r m1] w1]; simpl in *. done.
Qed.

Lemma retry_counter_bounded_witness :
  let up := fun n => 3 <=? n in
  connectionRetries new_manager <= maxRetries new_manager /\
  connectionRetries (testConnection up new_manager (mkWorld 0 [])).1.2 = 0 /\
  maxRetries (healthCheck up new_manager (mkWorld 0 [])).1.2 = 5.
Proof.
  intros up.
  assert (H0 : connectionRetries new_manager <= maxRetries new_manager)
    by (simpl; lia).
  split; [exact H0|].
  destruct (retry_counter_bounded up new_manager (mkWorld 0 []) H0)
    as ((_ & _) & (_ & Hmax) & _).
  split; [reflexivity | exact Hmax].
Defined.

Lemma delays_in_app l1 l2 : delays_in (l1 ++ l2) = delays_in l1 ++ delays_in l2.
Proof.
  induction l1 as [|[ok|ms|ok] l1 IH]; cbn [app delays_in]; [done| | |]; by rewrite ?IH.
Qed.

Lemma sum_list_scaled (a : nat) (f : nat -> nat) l :
  sum_list (map (fun i => a * f i) l) = a * sum_list (map f l).
Proof.
  induction l as [|x l IH]; cbn [map sum_list]; [lia|].
  by rewrite IH, Nat.mul_add_distr_l.
Qed.

Lemma retry_wait_bounded c k :
  c + k <= 5 ->
  sum_list (map (fun i => 2000 * (c + i)) (seq 1 k)) <= 2000 * 15 /\
  (c = 0 -> k = 5 -> sum_list (map (fun i => 2000 * (c + i)) (seq 1 k)) = 2000 * 15).
Proof.
  intros H. rewrite (sum_list_scaled 2000 (fun i => c + i)).
  assert (Hsmall : sum_list (map (fun i => c + i) (seq 1 k)) <= 15 /\
                   (c = 0 -> k = 5 -> sum_list (map (fun i => c + i) (seq 1 k)) = 15)).
  { assert (Hc : c <= 5) by lia. assert (Hk : k <= 5) by lia.
    do 6 (destruct c as [|c];
          [do 6 (destruct k as [|k]; [vm_compute; split; [lia | intros; lia] |]); lia |]).
    lia. }
  destruct Hsmall as [Hle Heq]. split.
  - by apply Nat.mul_le_mono_l.
  - intros -> ->. by rewrite Heq.
Qed.

Lemma delays_in_probe l b : delays_in (l ++ [Probe b]) = delays_in l.
Proof. rewrite delays_in_app. cbn [delays_in]. apply app_nil_r. Qed.

(** The waits of a [healthCheck] are those of the [testConnection] it
    runs, if it runs one. *)
Lemma healthCheck_delays up m w l r m1 c :
  testConnection up m w = (r, m1, {| clock := c; trace := trace w ++ l |}) ->
  delays_in (events_since w (healthCheck up m w).2)
  = if isConnected m then [] else delays_in l.
Proof.
  intros E. unfold healthCheck. destruct (isConnected m); cbn [negb].
  - unfold probe. destruct (up (clock w)); cbn [snd];
      by rewrite events_since_extend.
  - rewrite E. destruct r as [b|]; cbn [snd].
    + unfold probe. cbn [clock trace].
      destruct (up c); cbn [snd]; rewrite <- app_assoc, events_since_extend;
        apply delays_in_probe.
    + by rewrite events_since_extend.
Qed.

(** X3: with the bound at 5, all the waits of one [testConnection] add up
    to at most 2000 * 15 = 30000 ms, and so do those of one [healthCheck];
    a fresh manager that ends in the exception has waited exactly that
    long. *)
Theorem total_wait_bounded (up : nat -> bool) (m : Manager) (w : World) :
  maxRetries m = 5 ->
  connectionRetries m <= 5 ->
  sum_list (delays_in (events_since w (testConnection up m w).2)) <= 2000 * 15 /\
  sum_list (delays_in (events_since w (healthCheck up m w).2)) <= 2000 * 15 /\
  (connectionRetries m = 0 ->
   (testConnection up m w).1.1 = Throw ->
   sum_list (delays_in (events_since w (testConnection up m w).2)) = 2000 * 15).
Proof.
  intros Hmax Hc.
  destruct (testConnection_run up m w) as (k & Hk & [(_ & _ & E) | (Hx & _ & E)]);
    [lia | |].
  all: assert (Htest : sum_list (delays_in (events_since w (testConnection up m w).2))
                       <= 2000 * 15)
         by (rewrite E; cbn [snd];
             rewrite events_since_extend, delays_in_retry_events;
             apply retry_wait_bounded; lia).
  all: split; [exact Htest|]; split.
  all: try (rewrite (healthCheck_delays _ _ _ _ _ _ _ E);
            destruct (isConnected m); [cbn; lia|];
            rewrite delays_in_retry_events; apply retry_wait_bounded; lia).
  - intros _ Hthrow. rewrite E in Hthrow. discriminate.
  - intros H0 _. rewrite E. cbn [snd].
    rewrite events_since_extend, delays_in_retry_events.
    apply retry_wait_bounded; lia.
Qed.

Lemma total_wait_bounded_witness :
  maxRetries new_manager = 5 /\
  connectionRetries new_manager <= 5 /\
  sum_list (delays_in (events_since (mkWorld 0 [])
              (testConnection (fun _ => false) new_manager (mkWorld 0 [])).2)) = 2000 * 15.
Proof.
  split; [reflexivity|]. split; [simpl; lia|].
  apply (total_wait_bounded (fun _ => false) new_manager (mkWorld 0 []));
    [reflexivity | simpl; lia | reflexivity | reflexivity].
Defined.

(** X4: a manager that is marked connected notices an outage by one failed
    probe, with no connection attempt and no wait, and marks itself
    disconnected; if the store is back at the next [healthCheck], that one
    reconnects with a single attempt, probes, returns true and leaves the
    counter at 0. *)
Theorem healthCheck_outage_then_recovery (up : nat -> bool) (m : Manager) (w : World) :
  isConnected m = true ->
  up (clock w) = false ->
  up (S (clock w)) = true ->
  up (S (S (clock w))) = true ->
  let first := healthCheck up m w in
  let second := healthCheck up first.1.2 first.2 in
  first.1.1 = false /\
  events_since w first.2 = [Probe false] /\
  second.1.1 = true /\
  events_since first.2 second.2 = [Attempt true; Probe true] /\
  second.1.2 = {| isConnected := true; connectionRetries := 0;
                  maxRetries := maxRetries m |}.
Proof.
  intros Hc H0 H1 H2. cbn zeta.
  assert (E1 : healthCheck up m w
               = (false, set_connected false m,
                  {| clock := S (clock w); trace := trace w ++ [Probe false] |})).
  { unfold healthCheck, probe. rewrite Hc. cbn [negb]. by rewrite H0. }
  rewrite E1. cbn [fst snd].
  split; [done|]. split; [apply events_since_extend|].
  assert (E2 : healthCheck up (set_connected false m)
                 {| clock := S (clock w); trace := trace w ++ [Probe false] |}
               = (true,
                  {| isConnected := true; connectionRetries := 0;
                     maxRetries := maxRetries m |},
                  {| clock := S (S (S (clock w)));
                     trace := ((trace w ++ [Probe false]) ++ [Attempt true])
                              ++ [Probe true] |})).
  { unfold healthCheck. cbn [isConnected set_connected negb].
    rewrite testConnection_ok by done.
    unfold connect_and_query, probe. cbn [clock trace snd fst].
    by rewrite H1, H2. }
  rewrite E2. cbn [fst snd].
  split; [done|]. split; [|done].
  unfold events_since. cbn [trace]. rewrite <- app_assoc. apply drop_app_length.
Qed.

Lemma healthCheck_outage_then_recovery_witness :
  let up := fun n => negb (n =? 0) in
  let m := {| isConnected := true; connectionRetries := 0; maxRetries := 5 |} in
  let first := healthCheck up m (mkWorld 0 []) in
  let second := healthCheck up first.1.2 first.2 in
  first.1.1 = false /\
  events_since (mkWorld 0 []) first.2 = [Probe false] /\
  second.1.1 = true /\
  events_since first.2 second.2 = [Attempt true; Probe true] /\
  second.1.2 = {| isConnected := true; connectionRetries := 0; maxRetries := 5 |}.
Proof.
  intros up m.
  apply (healthCheck_outage_then_recovery up m (mkWorld 0 [])); reflexivity.
Defined.
End ManagerFacts.

Section HandleFacts.
Import Connection ConnectionHandle.
Local Open Scope nat_scope.

Lemma handle_step_timers i op :
  timers (handle_step i op) + created i = timers i + created (handle_step i op) /\
  timers i <= timers (handle_step i op).
Proof.
  destruct op as [|ok]; cbn [handle_step].
  - unfold getInstance. destruct (prisma i); cbn; lia.
  - unfold disconnect. destruct (prisma i); cbn; lia.
Qed.

(** X5: [getInstance] hands out one client until [disconnect]: a second
    call returns the same client and changes nothing. [disconnect] drops
    the client also when [$disconnect()] throws, and then leaves the
    connection flag as it was. Every client made installs one more
    reconnect timer and no call removes one, so a disconnect followed by
    [getInstance] leaves one timer more than before. *)
Theorem client_handle_lifecycle (i : Instance) (ok : bool) (ops : list HandleOp) :
  getInstance (getInstance i).2 = ((getInstance i).1, (getInstance i).2) /\
  prisma (disconnect ok i) = None /\
  manager (disconnect false i) = manager i /\
  timers (handle_run ops i) + created i = timers i + created (handle_run ops i) /\
  timers i <= timers (handle_run ops i) /\
  (is_Some (prisma i) ->
   timers (getInstance (disconnect ok i)).2 = S (timers i)).
Proof.
  split; [|split; [|split; [|split; [|split]]]].
  - unfold getInstance. destruct (prisma i) eqn:E; cbn; [by rewrite E | done].
  - unfold disconnect. by destruct (prisma i) eqn:E.
  - unfold disconnect. by destruct (prisma i).
  - revert i. induction ops as [|op ops IH]; intros i; cbn [handle_run fold_left]; [done|].
    pose proof (handle_step_timers i op) as [H1 _].
    specialize (IH (handle_step i op)). unfold handle_run in IH. lia.
  - revert i. induction ops as [|op ops IH]; intros i; cbn [handle_run fold_left]; [done|].
    pose proof (handle_step_timers i op) as [_ H2].
    specialize (IH (handle_step i op)). unfold handle_run in IH. lia.
  - intros [c Hc]. unfold disconnect, getInstance. rewrite Hc. cbn. done.
Qed.

Lemma client_handle_lifecycle_witness :
  let i := (getInstance new_instance).2 in
  is_Some (prisma i) /\
  timers (getInstance (disconnect true i)).2 = S (timers i).
Proof.
  intros i.
  assert (H : is_Some (prisma i)) by (vm_compute; eauto).
  split; [exact H|].
  exact (proj2 (proj2 (proj2 (proj2 (proj2
           (client_handle_lifecycle i true [])))))  H).
Defined.
End HandleFacts.

(* ===================================================================== *)
(** ** Properties of the error-handling and authentication middleware *)
(* ===================================================================== *)

Section ErrorFacts.
Import PrismaErrors.

(** X6: [handlePrismaErrors] answers 408 exactly for an error whose
    message contains "timeout" and whose code is none of P1001, P1002,
    P1008, P2002, P2025 and P2003. An error with the timeout code P1008
    is answered 503 by the first test, whatever its message, so the
    later test for P1008 never decides. *)
Theorem timeout_answer (e : PrismaError) :
  (e_code e = Some "P1008" -> er_status (handlePrismaErrors e) = 503%nat) /\
  (er_status (handlePrismaErrors e) = 408%nat <->
   mentions_timeout e = true /\
   e_code e <> Some "P1001" /\ e_code e <> Some "P1002" /\
   e_code e <> Some "P1008" /\ e_code e <> Some "P2002" /\
   e_code e <> Some "P2025" /\ e_code e <> Some "P2003").
Proof.
  unfold handlePrismaErrors, code_is. split.
  - intros ->. reflexivity.
  - repeat case_bool_decide; cbn [orb er_status]; try (split; [discriminate | tauto]).
    destruct (mentions_timeout e); cbn [er_status]; split;
      try discriminate; try tauto.
    intros []; discriminate.
Qed.

Lemma timeout_answer_witness :
  let e := {| e_code := Some "P1008"; e_message := Some "Operation timeout";
              e_target := None |} in
  mentions_timeout e = true /\ er_status (handlePrismaErrors e) = 503%nat.
Proof.
  intros e. split; [reflexivity|].
  exact (proj1 (timeout_answer e) eq_refl).
Defined.
End ErrorFacts.

Section AuthFacts.
Import Auth.

Lemma split_spaces_nonempty s : split_spaces s <> [].
Proof.
  destruct s as [|c s]; cbn [split_spaces]; [done|].
  destruct (Ascii.eqb c " "); [done|]. by destruct (split_spaces s).
Qed.

Lemma split_spaces_word s rest :
  no_space s = true ->
  split_spaces (s +:+ " " +:+ rest) = s :: split_spaces rest.
Proof.
  induction s as [|c s IH]; intros Hs.
  - reflexivity.
  - cbn [no_space] in Hs. apply andb_true_iff in Hs as [Hc Hs].
    apply negb_true_iff in Hc.
    change (String c s +:+ " " +:+ rest) with (String c (s +:+ " " +:+ rest)).
    cbn [split_spaces]. rewrite Hc, IH by done. reflexivity.
Qed.


Section WithTables.
Variable verify : string -> option string.
Variable users : gmap string User.
Variable read_fails : bool.

(** X7: [authenticateAdmin] answers every request as the chain
    [authenticateToken], [requireAdmin] does: the same status and message
    when it refuses, the same user when it lets the request through. *)
Theorem authenticateAdmin_is_chain (authorization : option string) :
  authenticateAdmin verify users read_fails authorization
  = chain (authenticateToken verify users read_fails authorization) requireAdmin.
Proof.
  unfold authenticateAdmin, authenticateToken, chain, requireAdmin.
  destruct (bearer_token authorization) as [token|]; [|done].
  destruct (verify token) as [userId|]; [|done].
  destruct read_fails; [done|].
  destruct (users !! userId) as [user|]; [|done].
  by destruct (u_isActive user).
Qed.

(** X8: the word before the first space of the [Authorization] header is
    never looked at: two headers that differ only in that word are
    answered alike, so any scheme name is taken for [Bearer]. *)
Theorem scheme_is_ignored (scheme1 scheme2 rest : string) :
  no_space scheme1 = true ->
  no_space scheme2 = true ->
  authenticateToken verify users read_fails (Some (scheme1 +:+ " " +:+ rest))
  = authenticateToken verify users read_fails (Some (scheme2 +:+ " " +:+ rest)) /\
  authenticateAdmin verify users read_fails (Some (scheme1 +:+ " " +:+ rest))
  = authenticateAdmin verify users read_fails (Some (scheme2 +:+ " " +:+ rest)).
Proof.
  intros H1 H2.
  assert (Htok : bearer_token (Some (scheme1 +:+ " " +:+ rest))
                 = bearer_token (Some (scheme2 +:+ " " +:+ rest))).
  { unfold bearer_token. rewrite !split_spaces_word by done. reflexivity. }
  unfold authenticateToken, authenticateAdmin. by rewrite Htok.
Qed.

(** X9: a request is let through only with a user row that exists under
    the id the verified token carries and that is active; the admin
    variant moreover only with the role ADMIN or SUPER_ADMIN. *)
Theorem authenticated_user_is_active (authorization : option string) (user : User) :
  authenticateToken verify users read_fails authorization = Next user
  \/ authenticateAdmin verify users read_fails authorization = Next user ->
  exists token userId,
    bearer_token authorization = Some token /\
    verify token = Some userId /\
    users !! userId = Some user /\
    u_isActive user = true /\
    (authenticateAdmin verify users read_fails authorization = Next user ->
     u_role user = "ADMIN" \/ u_role user = "SUPER_ADMIN").
Proof.
  unfold authenticateToken, authenticateAdmin.
  destruct (bearer_token authorization) as [token|]; [|intros [|]; discriminate].
  destruct (verify token) as [userId|] eqn:Hver; [|intros [|]; discriminate].
  destruct read_fails; [intros [|]; discriminate|].
  destruct (users !! userId) as [u|] eqn:Hu; [|intros [|]; discriminate].
  destruct (u_isActive u) eqn:Hact; cbn [negb]; [|intros [|]; discriminate].
  intros H. exists token, userId.
  assert (u = user) as ->.
  { destruct H as [[= ->]|H]; [done|].
    destruct (_ && _); [discriminate | by injection H]. }
  repeat (split; [done|]).
  do 2 case_bool_decide; cbn [negb andb]; intros Hn;
    first [by left | by right | discriminate].
Qed.

(** X10: once the admin route has set a user inactive, every request that
    carries a token of that user is refused with 401, and it is let
    through again after the route has set the user active. *)
Theorem deactivated_user_is_refused (id : string) (user : User)
    (authorization : option string) (token : string) :
  users !! id = Some user ->
  bearer_token authorization = Some token ->
  verify token = Some id ->
  let off := updateUserStatus false id false users in
  let on := updateUserStatus false id true off.2 in
  off.1 = 200%nat /\
  authenticateToken verify off.2 false authorization
    = Deny 401 "Invalid or inactive user" /\
  authenticateAdmin verify off.2 false authorization
    = Deny 401 "Invalid or inactive user" /\
  on.1 = 200%nat /\
  authenticateToken verify on.2 false authorization
    = Next {| u_id := u_id user; u_email := u_email user; u_role := u_role user;
              u_isActive := true |}.
Proof.
  intros Hu Htok Hver. cbn zeta.
  assert (Eoff : updateUserStatus false id false users
                 = (200%nat,
                    <[id := {| u_id := u_id user; u_email := u_email user;
                               u_role := u_role user; u_isActive := false |}]> users)).
  { unfold updateUserStatus. by rewrite Hu. }
  rewrite Eoff. cbn [fst snd].
  assert (Eon : updateUserStatus false id true
                  (<[id := {| u_id := u_id user; u_email := u_email user;
                              u_role := u_role user; u_isActive := false |}]> users)
                = (200%nat,
                   <[id := {| u_id := u_id user; u_email := u_email user;
                              u_role := u_role user; u_isActive := true |}]>
                     (<[id := {| u_id := u_id user; u_email := u_email user;
                                 u_role := u_role user; u_isActive := false |}]> users))).
  { unfold updateUserStatus. by rewrite lookup_insert_eq. }
  rewrite Eon. cbn [fst snd].
  unfold authenticateToken, authenticateAdmin. rewrite Htok, Hver.
  rewrite !lookup_insert_eq. cbn. done.
Qed.
End WithTables.

Lemma scheme_is_ignored_witness :
  let verify := fun t : string => if String.eqb t "tok" then Some "u1"%string else None in
  let users : gmap string User :=
    {[ "u1"%string := {| u_id := "u1"; u_email := "a@b.c"; u_role := "ADMIN";
                         u_isActive := true |} ]} in
  no_space "Bearer" = true /\ no_space "Basic" = true /\
  authenticateToken verify users false (Some ("Bearer" +:+ " " +:+ "tok"))
  = authenticateToken verify users false (Some ("Basic" +:+ " " +:+ "tok")).
Proof.
  intros verify users. split; [reflexivity|]. split; [reflexivity|].
  exact (proj1 (scheme_is_ignored verify users false "Bearer" "Basic" "tok"
                  eq_refl eq_refl)).
Defined.

Lemma authenticated_user_is_active_witness :
  let verify := fun t : string => if String.eqb t "tok" then Some "u1"%string else None in
  let users : gmap string User :=
    {[ "u1"%string := {| u_id := "u1"; u_email := "a@b.c"; u_role := "ADMIN";
                         u_isActive := true |} ]} in
  let user := {| u_id := "u1"; u_email := "a@b.c"; u_role := "ADMIN";
                 u_isActive := true |} in
  authenticateAdmin verify users false (Some "Bearer tok"%string) = Next user /\
  exists token userId,
    bearer_token (Some "Bearer tok"%string) = Some token /\
    verify token = Some userId /\
    users !! userId = Some user /\
    u_isActive user = true /\
    (authenticateAdmin verify users false (Some "Bearer tok"%string) = Next user ->
     u_role user = "ADMIN" \/ u_role user = "SUPER_ADMIN").
Proof.
  intros verify users user.
  assert (H : authenticateAdmin verify users false (Some "Bearer tok"%string) = Next user)
    by (vm_compute; reflexivity).
  split; [exact H|].
  exact (authenticated_user_is_active verify users false (Some "Bearer tok"%string)
           user (or_intror H)).
Defined.

Lemma deactivated_user_is_refused_witness :
  let verify := fun t : string => if String.eqb t "tok" then Some "u1"%string else None in
  let user := {| u_id := "u1"; u_email := "a@b.c"; u_role := "CUSTOMER";
                 u_isActive := true |} in
  let users : gmap string User := {[ "u1"%string := user ]} in
  users !! "u1"%string = Some user /\
  authenticateToken verify (updateUserStatus false "u1" false users).2 false
    (Some "Bearer tok"%string)
  = Deny 401 "Invalid or inactive user".
Proof.
  intros verify user users.
  assert (H : users !! "u1"%string = Some user) by (vm_compute; reflexivity).
  split; [exact H|].
  exact (proj1 (proj2 (deactivated_user_is_refused verify users "u1" user
                         (Some "Bearer tok"%string) "tok" H eq_refl eq_refl))).
Defined.
End AuthFacts.

(* ===================================================================== *)
(** ** Properties of slugs and of the category routes *)
(* ===================================================================== *)

Section SlugFacts.
Import Slug.

Lemma is_dash_eq c : is_dash c = true -> c = "-"%char.
Proof. unfold is_dash. by intros ?%Ascii.eqb_eq. Qed.

Lemma slug_char_not_dash c : is_slug_char c = true -> is_dash c = false.
Proof.
  intros H. destruct (is_dash c) eqn:E; [|done].
  apply is_dash_eq in E as ->. vm_compute in H. discriminate.
Qed.

Lemma slug_char_lower c : is_slug_char c = true -> lower_char c = c.
Proof.
  unfold is_slug_char, lower_char. intros H.
  destruct ((65 <=? nat_of_ascii c)%nat && (nat_of_ascii c <=? 90)%nat) eqn:E; [|done].
  exfalso.
  apply andb_true_iff in E as [E1%Nat.leb_le E2%Nat.leb_le].
  apply orb_true_iff in H as [H|H];
    apply andb_true_iff in H as [H1%Nat.leb_le H2%Nat.leb_le]; lia.
Qed.

Lemma dashes_apart_weaken s : dashes_apart true s = true -> dashes_apart false s = true.
Proof.
  destruct s as [|c s]; [done|]. cbn [dashes_apart].
  destruct (is_dash c); [discriminate | done].
Qed.

Lemma dash_runs_apart s : forall b, dashes_apart b (dash_runs b s) = true.
Proof.
  induction s as [|c s IH]; intros b; [done|]. cbn [dash_runs].
  destruct (is_slug_char c) eqn:Hc.
  - cbn [dashes_apart]. by rewrite (slug_char_not_dash c Hc), Hc, IH.
  - destruct b; [apply IH|]. cbn [dashes_apart]. change (is_dash "-") with true.
    cbn [negb andb]. apply IH.
Qed.

Lemma strip_leading_apart s :
  dashes_apart false s = true -> dashes_apart true (strip_leading_dash s) = true.
Proof.
  destruct s as [|c s]; [done|]. cbn [dashes_apart strip_leading_dash].
  destruct (is_dash c) eqn:Hc; cbn [negb andb]; [done|].
  intros H. cbn [dashes_apart]. by rewrite Hc.
Qed.

Lemma strip_trailing_apart s : forall b,
  dashes_apart b s = true -> dashes_apart b (strip_trailing_dash s) = true.
Proof.
  induction s as [|c s IH]; intros b H; [done|].
  destruct s as [|c' s'].
  - cbn [strip_trailing_dash]. by destruct (is_dash c).
  - change (strip_trailing_dash (String c (String c' s')))
      with (String c (strip_trailing_dash (String c' s'))).
    cbn [dashes_apart] in *. destruct (is_dash c).
    + apply andb_true_iff in H as [-> H]. by rewrite (IH true H).
    + apply andb_true_iff in H as [-> H]. by rewrite (IH false H).
Qed.

Lemma strip_trailing_no_dash s : forall b,
  dashes_apart b s = true -> ends_with_dash (strip_trailing_dash s) = false.
Proof.
  induction s as [|c s IH]; intros b H; [done|].
  destruct s as [|c' s'].
  - cbn [strip_trailing_dash]. destruct (is_dash c) eqn:Hc; [done|].
    cbn [ends_with_dash]. done.
  - change (strip_trailing_dash (String c (String c' s')))
      with (String c (strip_trailing_dash (String c' s'))).
    assert (Hrest : dashes_apart (is_dash c) (String c' s') = true).
    { cbn [dashes_apart] in H. destruct (is_dash c);
        by apply andb_true_iff in H as [_ H]. }
    specialize (IH _ Hrest).
    destruct (strip_trailing_dash (String c' s')) as [|d t] eqn:E.
    + (* the rest was a lone dash *)
      cbn [ends_with_dash].
      destruct s' as [|c'' s''].
      * cbn [strip_trailing_dash] in E. destruct (is_dash c') eqn:Hc'; [|discriminate].
        cbn [dashes_apart] in Hrest. rewrite Hc' in Hrest.
        by destruct (is_dash c).
      * discriminate.
    + exact IH.
Qed.

Lemma slug_shape_lemma (name : string) : slug_shaped (slugify name) = true.
Proof.
  unfold slug_shaped, slugify.
  pose proof (dash_runs_apart (toLowerCase name) false) as H.
  apply strip_leading_apart in H.
  rewrite (strip_trailing_apart _ _ H), (strip_trailing_no_dash _ _ H). done.
Qed.

Lemma apart_chars s : forall b,
  dashes_apart b s = true ->
  JSString.forallb_string (fun c => is_slug_char c || is_dash c) s = true.
Proof.
  induction s as [|c s IH]; intros b H; [done|].
  cbn [dashes_apart JSString.forallb_string] in *.
  destruct (is_dash c).
  - apply andb_true_iff in H as [_ H]. rewrite orb_true_r. by apply (IH true).
  - apply andb_true_iff in H as [-> H]. by apply (IH false).
Qed.

(** X11: every slug is made of words of [a-z0-9] joined by single dashes:
    no other character, no dash at either end, no two dashes in a row,
    whatever the name it is made from. *)
Theorem slugify_shape (name : string) :
  slug_shaped (slugify name) = true /\
  JSString.forallb_string (fun c => is_slug_char c || is_dash c) (slugify name) = true.
Proof.
  split; [apply slug_shape_lemma|].
  pose proof (slug_shape_lemma name) as [H _]%andb_true_iff.
  by apply (apart_chars _ true).
Qed.

Lemma apart_toLowerCase s : forall b, dashes_apart b s = true -> toLowerCase s = s.
Proof.
  induction s as [|c s IH]; intros b H; [done|]. cbn [dashes_apart toLowerCase] in *.
  destruct (is_dash c) eqn:Hc.
  - apply andb_true_iff in H as [_ H]. apply is_dash_eq in Hc as ->.
    by rewrite (IH _ H).
  - apply andb_true_iff in H as [Hs H]. by rewrite (slug_char_lower c Hs), (IH _ H).
Qed.

Lemma apart_dash_runs s : forall b, dashes_apart b s = true -> dash_runs b s = s.
Proof.
  induction s as [|c s IH]; intros b H; [done|]. cbn [dashes_apart dash_runs] in *.
  destruct (is_dash c) eqn:Hc.
  - apply andb_true_iff in H as [Hb H]. apply negb_true_iff in Hb as ->.
    destruct (is_slug_char c) eqn:Hs.
    + apply slug_char_not_dash in Hs. congruence.
    + apply is_dash_eq in Hc as ->. by rewrite (IH _ H).
  - apply andb_true_iff in H as [-> H]. by rewrite (IH _ H).
Qed.

Lemma apart_strip_leading s : dashes_apart true s = true -> strip_leading_dash s = s.
Proof.
  destruct s as [|c s]; [done|]. cbn [dashes_apart strip_leading_dash].
  by destruct (is_dash c).
Qed.

Lemma no_dash_strip_trailing s : ends_with_dash s = false -> strip_trailing_dash s = s.
Proof.
  induction s as [|c s IH]; [done|]. destruct s as [|c' s'].
  - cbn [ends_with_dash strip_trailing_dash]. by intros ->.
  - intros H.
    change (strip_trailing_dash (String c (String c' s')))
      with (String c (strip_trailing_dash (String c' s'))).
    by rewrite IH.
Qed.

Lemma shaped_fixed s : slug_shaped s = true -> slugify s = s.
Proof.
  unfold slug_shaped, slugify. intros [Ha He%negb_true_iff]%andb_true_iff.
  rewrite (apart_toLowerCase _ _ Ha).
  rewrite (apart_dash_runs _ _ (dashes_apart_weaken _ Ha)).
  rewrite (apart_strip_leading _ Ha). by apply no_dash_strip_trailing.
Qed.

(** X12: making a slug of a slug changes nothing, and the texts that
    [slugify] leaves as they are are exactly those of the slug shape. *)
Theorem slugify_idempotent (name : string) :
  slugify (slugify name) = slugify name /\
  (slugify name = name <-> slug_shaped name = true).
Proof.
  split.
  - apply shaped_fixed, slug_shape_lemma.
  - split; [|apply shaped_fixed].
    intros <-. apply slug_shape_lemma.
Qed.





End SlugFacts.

Section CategoryFacts.
Import Categories.

Lemma slug_taken_true except slug (table : gmap string Category) id c :
  table !! id = Some c -> c_slug c = slug -> Some id <> except ->
  slug_taken except slug table = true.
Proof.
  intros Hc Hs Hne. unfold slug_taken. apply bool_decide_eq_true.
  exists id, c. done.
Qed.

(** X14: a category is refused when its slug is that of a stored category,
    also when the two names differ: after [POST /] has stored a category,
    a [POST /] with any name of the same slug answers 400 "Category name
    already exists" and stores nothing, and a [PUT /:id] that renames
    another category to such a name answers 500 and changes nothing. *)
Theorem category_slug_collision
    (id1 id2 name1 name2 : string) (d1 i1 d2 i2 : option string)
    (table table1 : gmap string Category) (other : string) (c : Category) :
  createCategory false true id1 name1 d1 i1 table
    = (Answered 201 "Category created successfully", table1) ->
  Slug.slugify name2 = Slug.slugify name1 ->
  createCategory false true id2 name2 d2 i2 table1
    = (Answered 400 "Category name already exists", table1) /\
  (table1 !! other = Some c -> other <> id1 -> name2 <> EmptyString ->
   updateCategory false other (Some name2) d2 i2 table1
     = (Answered 500 "Server error", table1)).
Proof.
  unfold createCategory at 1. cbn [negb].
  destruct (bool_decide (is_Some (table !! id1)) || slug_taken None _ table);
    [discriminate|].
  intros [= <-] Hslug.
  assert (Htaken : forall except, Some id1 <> except ->
            slug_taken except (Slug.slugify name2) (<[id1 :=
              {| c_name := name1; c_slug := Slug.slugify name1;
                 c_description := d1; c_image := i1 |}]> table) = true).
  { intros except Hne. eapply slug_taken_true; [apply lookup_insert_eq | | done].
    by rewrite Hslug. }
  split.
  - unfold createCategory. cbn [negb]. rewrite (Htaken None) by done.
    by rewrite orb_true_r.
  - intros Hother Hne Hname. unfold updateCategory. rewrite Hother.
    destruct name2 as [|a n]; [done|].
    rewrite (Htaken (Some other)); [done|]. congruence.
Qed.

Lemma category_slug_collision_witness :
  let table1 : gmap string Category :=
    {[ "c1"%string := {| c_name := "Shirt Fabrics";
                         c_slug := Slug.slugify "Shirt Fabrics";
                         c_description := None; c_image := None |} ]} in
  createCategory false true "c1" "Shirt Fabrics" None None ∅
    = (Answered 201 "Category created successfully", table1) /\
  Slug.slugify "shirt-fabrics!" = Slug.slugify "Shirt Fabrics" /\
  createCategory false true "c2" "shirt-fabrics!" None None table1
    = (Answered 400 "Category name already exists", table1).
Proof.
  intros table1.
  assert (H1 : createCategory false true "c1" "Shirt Fabrics" None None ∅
               = (Answered 201 "Category created successfully", table1))
    by (vm_compute; reflexivity).
  assert (H2 : Slug.slugify "shirt-fabrics!" = Slug.slugify "Shirt Fabrics")
    by (vm_compute; reflexivity).
  split; [exact H1|]. split; [exact H2|].
  exact (proj1 (category_slug_collision "c1" "c2" "Shirt Fabrics" "shirt-fabrics!"
                  None None None None ∅ table1 "c1"
                  {| c_name := ""; c_slug := ""; c_description := None;
                     c_image := None |} H1 H2)).
Defined.
End CategoryFacts.

(* ===================================================================== *)
(** ** Properties of the address book and the wishlist *)
(* ===================================================================== *)

Section AddressFacts.
Import Addresses.

Lemma unset_defaults_lookup u (t : gmap string AddressRow) id :
  unset_defaults u t !! id
  = (fun r => if bool_decide (ad_userId r = u) && isDefault r
              then set_isDefault false r else r) <$> t !! id.
Proof. unfold unset_defaults. apply lookup_fmap. Qed.

Lemma unset_defaults_other u (t : gmap string AddressRow) id r :
  t !! id = Some r -> ad_userId r <> u -> unset_defaults u t !! id = Some r.
Proof.
  intros Hr Hne. rewrite unset_defaults_lookup, Hr. cbn.
  by rewrite bool_decide_eq_false_2.
Qed.

Lemma unset_defaults_owner u (t : gmap string AddressRow) id r :
  unset_defaults u t !! id = Some r ->
  exists r0, t !! id = Some r0 /\ ad_userId r = ad_userId r0 /\
             (ad_userId r = u -> isDefault r = false) /\
             (isDefault r = true -> r = r0).
Proof.
  rewrite unset_defaults_lookup. destruct (t !! id) as [r0|]; [|discriminate].
  cbn. intros [= <-]. exists r0. split; [done|].
  case_bool_decide as Hu; destruct (isDefault r0) eqn:Hd; cbn; try done.
  all: repeat split; try done; try congruence.
Qed.

(** The shape of every run of [POST /addresses] that gets past the
    validators. *)
Lemma addAddress_cases fault newId u b (t : gmap string AddressRow) :
  let t1 := if b_isDefault b then unset_defaults u t else t in
  let k := if b_isDefault b then 1%nat else O in
  addAddress fault newId u true b t
  = if b_isDefault b && fault O then (Answered 500 "Server error", t)
    else if fault k then (Answered 500 "Server error", t1)
    else match t1 !! newId with
         | Some _ => (Answered 500 "Server error", t1)
         | None => (Answered 201 "Address added successfully",
                    <[newId := row_of_body u b]> t1)
         end.
Proof.
  unfold addAddress. cbn [negb].
  destruct (b_isDefault b); cbn [andb]; [|done].
  by destruct (fault O).
Qed.

(** X15: after a [POST /addresses] with [isDefault] set has answered 201,
    the new address is the one and only default address of the user,
    however many defaults the user had before. *)
Theorem added_default_is_unique
    (fault : nat -> bool) (newId userId : string) (b : AddressBody)
    (table table' : gmap string AddressRow) (message : string) :
  addAddress fault newId userId true b table = (Answered 201 message, table') ->
  b_isDefault b = true ->
  table' !! newId = Some (row_of_body userId b) /\
  forall id r,
    table' !! id = Some r -> ad_userId r = userId ->
    (isDefault r = true <-> id = newId).
Proof.
  rewrite addAddress_cases. intros H Hd. rewrite Hd in H. cbn [andb] in H.
  destruct (fault O); [discriminate|]. destruct (fault 1%nat); [discriminate|].
  destruct (unset_defaults userId table !! newId) eqn:Hnew; [discriminate|].
  injection H as _ <-. split; [apply lookup_insert_eq|].
  intros id r Hr Hu. destruct (decide (id = newId)) as [->|Hne].
  - rewrite lookup_insert_eq in Hr. injection Hr as <-. cbn. by rewrite Hd.
  - rewrite lookup_insert_ne in Hr by done.
    apply unset_defaults_owner in Hr as (r0 & _ & _ & Hoff & _).
    rewrite (Hoff Hu). split; [discriminate | done].
Qed.

(** X16: a failure of [address.create] after the defaults were unset is
    answered 500 and the unsetting stays: the user ends with no default
    address at all, although nothing was added. *)
Theorem failed_add_loses_default
    (fault : nat -> bool) (newId userId : string) (b : AddressBody)
    (table : gmap string AddressRow) :
  b_isDefault b = true ->
  fault O = false ->
  fault 1%nat = true ->
  addAddress fault newId userId true b table
    = (Answered 500 "Server error", unset_defaults userId table) /\
  dom (unset_defaults userId table) = dom table /\
  forall id r,
    unset_defaults userId table !! id = Some r -> ad_userId r = userId ->
    isDefault r = false.
Proof.
  intros Hd H0 H1. rewrite addAddress_cases, Hd, H0, H1. cbn [andb].
  split; [done|]. split; [apply dom_fmap_L|].
  intros id r Hr Hu. by apply unset_defaults_owner in Hr as (r0 & _ & _ & Hoff & _); auto.
Qed.

Lemma added_default_is_unique_witness :
  let r := addAddress Orders.no_fault "a3" "u1" true Samples.office Samples.book in
  r.1 = Answered 201 "Address added successfully" /\
  b_isDefault Samples.office = true /\
  r.2 !! "a3" = Some (row_of_body "u1" Samples.office) /\
  forall id row,
    r.2 !! id = Some row -> ad_userId row = "u1" ->
    (isDefault row = true <-> id = "a3").
Proof.
  intros r.
  assert (H : addAddress Orders.no_fault "a3" "u1" true Samples.office Samples.book
              = (Answered 201 "Address added successfully", r.2))
    by (vm_compute; reflexivity).
  split; [vm_compute; reflexivity|]. split; [reflexivity|].
  exact (added_default_is_unique Orders.no_fault "a3" "u1" Samples.office
           Samples.book r.2 _ H eq_refl).
Defined.

Lemma failed_add_loses_default_witness :
  let fault := Demo.fault_at 1 in
  b_isDefault Samples.office = true /\ fault O = false /\ fault 1%nat = true /\
  addAddress fault "a3" "u1" true Samples.office Samples.book
    = (Answered 500 "Server error", unset_defaults "u1" Samples.book) /\
  isDefault <$> unset_defaults "u1" Samples.book !! "a1" = Some false.
Proof.
  intros fault. split; [reflexivity|]. split; [reflexivity|]. split; [reflexivity|].
  split.
  - exact (proj1 (failed_add_loses_default fault "a3" "u1" Samples.office Samples.book
                    eq_refl eq_refl eq_refl)).
  - vm_compute. reflexivity.
Defined.

(** X17: none of the three writing routes touches an address of another
    user: whatever the call and its outcome, every row that belonged to
    somebody else is afterwards as it was. *)
Theorem other_users_addresses_untouched
    (fault : nat -> bool) (fails valid sets_default : bool)
    (newId id userId : string) (b : AddressBody) (apply : AddressRow -> AddressRow)
    (table : gmap string AddressRow) (other : string) (r : AddressRow) :
  table !! other = Some r ->
  ad_userId r <> userId ->
  (addAddress fault newId userId valid b table).2 !! other = Some r /\
  (updateAddress fault id userId valid sets_default apply table).2 !! other = Some r /\
  (deleteAddress fails id userId table).2 !! other = Some r.
Proof.
  intros Hr Hne.
  pose proof (unset_defaults_other userId table other r Hr Hne) as Hunset.
  split; [|split].
  - destruct valid; [|done]. rewrite addAddress_cases.
    destruct (b_isDefault b); cbn [andb].
    + destruct (fault O); [done|]. destruct (fault 1%nat); [done|].
      destruct (unset_defaults userId table !! newId) eqn:Hnew; [done|].
      cbn [snd]. rewrite lookup_insert_ne; [done|]. congruence.
    + destruct (fault O); [done|].
      destruct (table !! newId) eqn:Hnew; [done|].
      cbn [snd]. rewrite lookup_insert_ne; [done|]. congruence.
  - unfold updateAddress. destruct valid; [|done]. cbn [negb].
    unfold findFirst. destruct (table !! id) as [r0|] eqn:Hid; [|done].
    case_bool_decide as Hown; [|done].
    assert (id <> other) by congruence.
    destruct sets_default.
    + destruct (fault O); [done|]. destruct (fault 1%nat); [done|].
      destruct (unset_defaults userId table !! id); [|done].
      cbn [snd]. by rewrite lookup_insert_ne.
    + destruct (fault O); [done|]. rewrite Hid.
      cbn [snd]. by rewrite lookup_insert_ne.
  - unfold deleteAddress, findFirst. destruct (table !! id) as [r0|] eqn:Hid; [|done].
    case_bool_decide as Hown; [|done].
    destruct fails; [done|]. cbn [snd]. rewrite lookup_delete_ne; [done|]. congruence.
Qed.

Lemma other_users_addresses_untouched_witness :
  Samples.book !! "a2" = Some Samples.neighbour /\
  ad_userId Samples.neighbour <> "u1" /\
  (addAddress Orders.no_fault "a3" "u1" true Samples.office Samples.book).2 !! "a2"
    = Some Samples.neighbour /\
  (updateAddress Orders.no_fault "a1" "u1" true true (set_isDefault true)
     Samples.book).2 !! "a2" = Some Samples.neighbour /\
  (deleteAddress false "a1" "u1" Samples.book).2 !! "a2" = Some Samples.neighbour.
Proof.
  assert (H1 : Samples.book !! "a2" = Some Samples.neighbour)
    by (vm_compute; reflexivity).
  assert (H2 : ad_userId Samples.neighbour <> "u1") by discriminate.
  split; [exact H1|]. split; [exact H2|].
  exact (other_users_addresses_untouched Orders.no_fault false true true "a3" "a1" "u1"
           Samples.office (set_isDefault true) Samples.book "a2" Samples.neighbour
           H1 H2).
Defined.

Lemma one_default_unset u (t : gmap string AddressRow) :
  one_default_each t -> one_default_each (unset_defaults u t).
Proof.
  intros Hinv id1 id2 r1 r2 H1 H2 Hu Hd1 Hd2.
  apply unset_defaults_owner in H1 as (r1' & H1 & _ & _ & E1).
  apply unset_defaults_owner in H2 as (r2' & H2 & _ & _ & E2).
  rewrite <- (E1 Hd1) in H1. rewrite <- (E2 Hd2) in H2.
  by apply (Hinv id1 id2 r1 r2).
Qed.

(** Inserting a row keeps the invariant when no other row of its owner is
    a default, or when the row is not a default itself. *)
Lemma one_default_insert (t : gmap string AddressRow) id r :
  one_default_each t ->
  (isDefault r = true ->
   forall id' r', t !! id' = Some r' -> id' <> id ->
                  ad_userId r' = ad_userId r -> isDefault r' = false) ->
  one_default_each (<[id := r]> t).
Proof.
  intros Hinv Hnew id1 id2 r1 r2 H1 H2 Hu Hd1 Hd2.
  destruct (decide (id1 = id2)) as [|Hne]; [done|]. exfalso.
  destruct (decide (id1 = id)) as [->|Hn1].
  - rewrite lookup_insert_eq in H1. injection H1 as <-.
    rewrite lookup_insert_ne in H2 by done.
    rewrite (Hnew Hd1 id2 r2 H2) in Hd2; [discriminate | done | done].
  - rewrite lookup_insert_ne in H1 by done.
    destruct (decide (id2 = id)) as [->|Hn2].
    + rewrite lookup_insert_eq in H2. injection H2 as <-.
      rewrite (Hnew Hd2 id1 r1 H1) in Hd1; [discriminate | done | done].
    + rewrite lookup_insert_ne in H2 by done.
      by apply Hne, (Hinv id1 id2 r1 r2).
Qed.

Lemma one_default_delete (t : gmap string AddressRow) id :
  one_default_each t -> one_default_each (delete id t).
Proof.
  intros Hinv id1 id2 r1 r2 H1 H2.
  apply lookup_delete_Some in H1 as [_ H1]. apply lookup_delete_Some in H2 as [_ H2].
  by apply (Hinv id1 id2 r1 r2).
Qed.

(** X18: "no user has two default addresses" is kept by the address
    routes, whatever their outcome: by [POST /addresses] and by
    [DELETE /addresses/:id] always, and by [PUT /addresses/:id] when the
    body leaves the owner alone and makes the row a default only through a
    truthy [isDefault]. *)
Theorem one_default_each_kept
    (fault : nat -> bool) (fails valid sets_default : bool)
    (newId id userId : string) (b : AddressBody) (apply : AddressRow -> AddressRow)
    (table : gmap string AddressRow) :
  one_default_each table ->
  one_default_each (addAddress fault newId userId valid b table).2 /\
  one_default_each (deleteAddress fails id userId table).2 /\
  ((forall r, ad_userId (apply r) = ad_userId r) ->
   (forall r, isDefault (apply r) = true -> sets_default = true \/ isDefault r = true) ->
   one_default_each (updateAddress fault id userId valid sets_default apply table).2).
Proof.
  intros Hinv. pose proof (one_default_unset userId table Hinv) as Hinv1.
  split; [|split].
  - destruct valid; [|done]. rewrite addAddress_cases.
    destruct (b_isDefault b) eqn:Hd; cbn [andb].
    + destruct (fault O); [done|]. destruct (fault 1%nat); [done|].
      destruct (unset_defaults userId table !! newId) eqn:Hnew; [done|].
      cbn [snd]. apply one_default_insert; [done|].
      intros _ id' r' Hr' _ Hu.
      apply unset_defaults_owner in Hr' as (r0 & _ & _ & Hoff & _). by apply Hoff.
    + destruct (fault O); [done|]. destruct (table !! newId) eqn:Hnew; [done|].
      cbn [snd]. apply one_default_insert; [done|]. cbn. by rewrite Hd.
  - unfold deleteAddress. destruct (findFirst table id userId); [|done].
    destruct fails; [done|]. by apply one_default_delete.
  - intros Howner Hflag. unfold updateAddress. destruct valid; [|done]. cbn [negb].
    unfold findFirst. destruct (table !! id) as [r0|] eqn:Hid; [|done].
    case_bool_decide as Hown; [|done].
    destruct sets_default.
    + destruct (fault O); [done|]. destruct (fault 1%nat); [done|].
      destruct (unset_defaults userId table !! id) as [r1|] eqn:Hid1; [|done].
      cbn [snd]. apply one_default_insert; [done|].
      intros _ id' r' Hr' _ Hu.
      apply unset_defaults_owner in Hr' as (r0' & _ & _ & Hoff & _).
      apply Hoff. rewrite Hu, Howner.
      apply unset_defaults_owner in Hid1 as (r0'' & Hid1 & -> & _).
      rewrite Hid in Hid1. by injection Hid1 as <-.
    + destruct (fault O); [done|]. rewrite Hid. cbn [snd].
      apply one_default_insert; [done|].
      intros Hd id' r' Hr' Hne Hu.
      destruct (Hflag r0 Hd) as [|Hd0]; [discriminate|].
      destruct (isDefault r') eqn:Hd'; [|done]. exfalso. apply Hne.
      apply (Hinv id' id r' r0); try done. by rewrite Hu, Howner.
Qed.

Lemma one_default_each_kept_witness :
  one_default_each Samples.book /\
  one_default_each
    (addAddress Orders.no_fault "a3" "u1" true Samples.office Samples.book).2.
Proof.
  assert (H : one_default_each Samples.book).
  { intros id1 id2 r1 r2 H1 H2 Hu _ _.
    unfold Samples.book in H1, H2.
    apply lookup_insert_Some in H1 as [[<- <-]|[_ H1]];
      apply lookup_insert_Some in H2 as [[<- <-]|[_ H2]]; try done.
    - apply lookup_singleton_Some in H2 as [<- <-]. discriminate.
    - apply lookup_singleton_Some in H1 as [<- <-]. discriminate.
    - apply lookup_singleton_Some in H1 as [<- _].
      by apply lookup_singleton_Some in H2 as [<- _]. }
  split; [exact H|].
  exact (proj1 (one_default_each_kept Orders.no_fault false true false "a3" "a1" "u1"
                  Samples.office (fun r => r) Samples.book H)).
Defined.
End AddressFacts.

Section WishlistFacts.
Import Wishlist.

(** X19: [POST /wishlist/:productId] answers 200 exactly when the product
    exists, the user does not have it in the wishlist yet and the write
    does not fail; then the pair is in the wishlist and a repeated call is
    answered 400 without any change. Every other answer leaves the
    wishlist as it was. *)
Theorem wishlist_add_once
    (fails fails2 : bool) (userId productId : string)
    (products : gmap string Store.Product) (w : gset (string * string)) :
  let r := addToWishlist fails userId productId products w in
  (r.1.1 = 200%nat <->
   is_Some (products !! productId) /\ ((userId, productId) ∉ w) /\ fails = false) /\
  (r.1.1 = 200%nat ->
   (userId, productId) ∈ r.2 /\
   addToWishlist fails2 userId productId products r.2
     = ((400%nat, "Product already in wishlist"), r.2)) /\
  (r.1.1 <> 200%nat -> r.2 = w).
Proof.
  cbn zeta. unfold addToWishlist.
  destruct (products !! productId) as [p|] eqn:Hp.
  2:{ cbn. split; [|done]. split; [discriminate|]. by intros [[? [=]] _]. }
  case_bool_decide as Hin.
  { cbn. split; [|done]. split; [discriminate|]. by intros (_ & Hn & _). }
  destruct fails.
  { cbn. split; [|done]. split; [discriminate|]. by intros (_ & _ & [=]). }
  cbn [fst snd]. split; [|split]; [| |done].
  - split; [|done]. intros _. split; [eauto | done].
  - intros _. split; [set_solver|].
    rewrite bool_decide_eq_true_2 by set_solver. done.
Qed.

(** X20: removing what was just added gives the wishlist back; removing is
    answered 200 whether or not the pair was there, a second removal
    changes nothing more, and no other pair is ever removed. *)
Theorem wishlist_remove_round_trip
    (userId productId : string) (products : gmap string Store.Product)
    (w : gset (string * string)) :
  let removed := removeFromWishlist false userId productId w in
  removed.1 = (200%nat, "Product removed from wishlist"%string) /\
  ((userId, productId) ∉ removed.2) /\
  (forall pair, pair <> (userId, productId) -> (pair ∈ removed.2 <-> pair ∈ w)) /\
  (removeFromWishlist false userId productId removed.2).2 = removed.2 /\
  ((userId, productId) ∉ w ->
   (removeFromWishlist false userId productId
      (addToWishlist false userId productId products w).2).2 = w).
Proof.
  cbn zeta. unfold removeFromWishlist. cbn [fst snd].
  split; [done|]. split; [set_solver|]. split; [set_solver|].
  split; [set_solver|].
  intros Hn. unfold addToWishlist.
  destruct (products !! productId); [|set_solver].
  rewrite bool_decide_eq_false_2 by done. cbn [snd]. set_solver.
Qed.
End WishlistFacts.

(* ===================================================================== *)
(** ** Further properties of the order routes *)
(* ===================================================================== *)

Section MoreOrderFacts.
Import Store Orders OrderReads.

(** What a cancellation that answers 200 has done to the store. *)
Lemma cancelOrder_effect fault userId id db resp db' :
  cancelOrder fault userId id db = (resp, db') ->
  code resp = 200%nat ->
  exists o,
    orders db !! id = Some o /\ o_userId o = userId /\ status o = PENDING /\
    orders db' = <[id := set_status CANCELLED o]> (orders db) /\
    addresses db' = addresses db /\
    forall pid,
      products db' !! pid
      = (fun p => set_stock (stock p + line_total pid (lines_of_order o)) p)
          <$> products db !! pid.
Proof.
  unfold cancelOrder. intros H Hcode.
  destruct (order_findFirst db id userId PENDING) as [o|] eqn:E;
    [|injection H as <- <-; discriminate].
  apply order_findFirst_Some in E as (Ho & Hu & Hs).
  unfold transaction in H. rewrite cancelOrder_tx_unfold in H. cbn [tx_count tx_db] in H.
  destruct (fault O); [injection H as <- <-; discriminate|].
  unfold order_update_status in H. rewrite Ho in H.
  match type of H with
  | context [tx_for_each ?f ?l ?s] => destruct (tx_for_each f l s) as [[[] s']|] eqn:Hloop
  end; [|injection H as <- <-; discriminate].
  injection H as <- <-.
  apply (stock_loop_result oi_productId (fun oi => - oi_quantity oi)) in Hloop
    as (Ha & Ho' & _ & Hl).
  cbn [tx_db set_orders orders addresses products] in *.
  exists o. repeat (split; [done|]).
  intros pid. rewrite Hl. destruct (products db !! pid) as [p|]; [|done].
  cbn. do 2 f_equal.
  rewrite (line_total_opp oi_productId oi_quantity). unfold lines_of_order. lia.
Qed.

(** X21: an order that [createOrder] has created is PENDING, is returned
    to its owner by [GET /:id] under the generated key, and is answered
    404 to every other user. *)
Theorem created_order_is_readable
    (env : Env) (userId : string) (req : Request) (db : Db)
    (resp : Response) (db' : Db) :
  createOrder env userId req db = (resp, db') ->
  code resp = 201%nat ->
  exists o,
    resp = mkResponse 201 (MessageOrder "Order created successfully" o) /\
    status o = PENDING /\
    getOrder userId (newId env) db' = (200%nat, Some o) /\
    forall other, other <> userId -> getOrder other (newId env) db' = (404%nat, None).
Proof.
  intros H Hcode.
  destruct (createOrder_created _ _ _ _ _ _ H Hcode)
    as (ps & o & -> & _ & _ & _ & Ho & _ & Hord & _).
  exists o. split; [done|].
  assert (Hu : o_userId o = userId) by (by rewrite Ho).
  split; [by rewrite Ho|].
  unfold getOrder. rewrite Hord, lookup_insert_eq, Hu.
  split; [by rewrite bool_decide_eq_true_2|].
  intros other Hne. by rewrite bool_decide_eq_false_2.
Qed.

Lemma created_order_is_readable_witness :
  let r := createOrder Demo.env0 "u1" (Demo.request [Demo.line 3]) Demo.db0 in
  code r.1 = 201%nat /\
  exists o,
    r.1 = mkResponse 201 (MessageOrder "Order created successfully" o) /\
    status o = PENDING /\
    getOrder "u1" "o1" r.2 = (200%nat, Some o) /\
    forall other, other <> "u1"%string -> getOrder other "o1" r.2 = (404%nat, None).
Proof.
  intros r.
  assert (Hc : code r.1 = 201%nat) by (vm_compute; reflexivity).
  split; [exact Hc|].
  exact (created_order_is_readable Demo.env0 "u1" (Demo.request [Demo.line 3]) Demo.db0
           r.1 r.2 (surjective_pairing r) Hc).
Defined.

(** X22: cancelling an order right after it was created undoes the
    creation on the products: when no statement fails, the cancellation is
    answered 200 and the products table is again exactly what it was
    before the order. *)
Theorem create_then_cancel_restores_products
    (env : Env) (fault : nat -> bool) (userId : string) (req : Request) (db : Db)
    (resp : Response) (db' : Db) :
  createOrder env userId req db = (resp, db') ->
  code resp = 201%nat ->
  (forall n, fault n = false) ->
  exists db'',
    cancelOrder fault userId (newId env) db'
      = (mkResponse 200 (Message "Order cancelled successfully"), db'') /\
    products db'' = products db /\
    status_of db'' (newId env) = Some CANCELLED.
Proof.
  intros H Hcode Hfault.
  destruct (createOrder_created _ _ _ _ _ _ H Hcode)
    as (ps & o & _ & _ & _ & HF & Ho & _ & Hord & _ & Hl).
  assert (Hlines : lines_of_order o = lines_of_items (items req)).
  { unfold lines_of_order. rewrite Ho. cbn [orderItems]. by eapply lines_of_zip. }
  destruct (cancelOrder_commits fault userId (newId env) db' o) as (db'' & E & Ho' & _ & Hs).
  - by rewrite Hord, lookup_insert_eq.
  - by rewrite Ho.
  - by rewrite Ho.
  - intros oi Hoi. rewrite Ho in Hoi. cbn [orderItems] in Hoi.
    apply list_elem_of_lookup in Hoi as [i Hi].
    apply lookup_zip_with_Some in Hi as (item & p & -> & Hitem & Hp).
    destruct (Forall2_lookup_lr _ _ _ _ _ _ HF Hitem Hp) as (Hprod & _).
    rewrite Hl. cbn. rewrite Hprod. eauto.
  - done.
  - exists db''. split; [exact E|]. split.
    + destruct (cancelOrder_effect _ _ _ _ _ _ E eq_refl)
        as (o2 & Ho2 & _ & _ & _ & _ & Hp).
      rewrite Hord, lookup_insert_eq in Ho2. injection Ho2 as <-.
      apply map_eq. intros pid. rewrite Hp, Hl, Hlines.
      destruct (products db !! pid) as [p|]; [|done]. cbn. f_equal.
      destruct p. unfold set_stock. cbn. f_equal. lia.
    + unfold status_of. by rewrite Ho', lookup_insert_eq.
Qed.

Lemma create_then_cancel_restores_products_witness :
  let r := createOrder Demo.env0 "u1" (Demo.request [Demo.line 3; Demo.line 2]) Demo.db0 in
  code r.1 = 201%nat /\
  exists db'',
    cancelOrder no_fault "u1" "o1" r.2
      = (mkResponse 200 (Message "Order cancelled successfully"), db'') /\
    products db'' = products Demo.db0 /\
    status_of db'' "o1" = Some CANCELLED.
Proof.
  intros r.
  assert (Hc : code r.1 = 201%nat) by (vm_compute; reflexivity).
  split; [exact Hc|].
  exact (create_then_cancel_restores_products Demo.env0 no_fault "u1"
           (Demo.request [Demo.line 3; Demo.line 2]) Demo.db0 r.1 r.2
           (surjective_pairing r) Hc (fun _ => eq_refl)).
Defined.



(** X24: the three routes that write orders leave the address table
    alone, add or remove no product, and change no column of a product
    other than [stock]; the admin status update does not change [stock]
    either. *)
Theorem order_routes_frame (db : Db) (op : Op) :
  addresses (step db op) = addresses db /\
  (forall pid,
     set_stock 0 <$> products (step db op) !! pid
     = set_stock 0 <$> products db !! pid) /\
  (forall fault id s,
     op = OpUpdateOrderStatus fault id s -> products (step db op) = products db).
Proof.
  destruct op as [env userId req | fault userId id | fault id s]; cbn [step].
  - destruct (createOrder env userId req db) as [resp db'] eqn:E. cbn [snd].
    destruct (decide (code resp = 201%nat)) as [Hcode|Hcode].
    + destruct (createOrder_created _ _ _ _ _ _ E Hcode)
        as (ps & o & _ & _ & _ & _ & _ & _ & _ & Ha & Hl).
      split; [done|]. split; [|discriminate].
      intros pid. rewrite Hl. by destruct (products db !! pid).
    + rewrite (createOrder_rollback _ _ _ _ _ _ E Hcode). by split; [|split].
  - destruct (cancelOrder fault userId id db) as [resp db'] eqn:E. cbn [snd].
    destruct (decide (code resp = 200%nat)) as [Hcode|Hcode].
    + destruct (cancelOrder_effect _ _ _ _ _ _ E Hcode)
        as (o & _ & _ & _ & _ & Ha & Hl).
      split; [done|]. split; [|discriminate].
      intros pid. rewrite Hl. by destruct (products db !! pid).
    + pose proof (cancelOrder_rollback fault userId id db) as Hsame.
      rewrite E in Hsame. cbn [fst snd] in Hsame. rewrite (Hsame Hcode).
      by split; [|split].
  - unfold updateOrderStatus, order_update_status.
    destruct (fault O); [by split; [|split]|].
    destruct (orders db !! id); by split; [|split].
Qed.

(** X25: [createOrder] stops at the first line it cannot accept, and a
    missing or inactive product is reported before stock is looked at:
    when the lines before pass and the next one names a product that is
    missing or inactive, the answer is 400 with that product's id, the
    store is unchanged, and the lines after it are not examined. *)
Theorem first_bad_line_decides
    (env : Env) (userId : string) (req : Request) (db : Db)
    (before after : list Item) (bad : Item) (ps : list Product) :
  validate req = true ->
  is_Some (address_findFirst db (addressId req) userId) ->
  items req = before ++ bad :: after ->
  Forall2 (line_ok db) before ps ->
  (forall p, products db !! productId bad = Some p -> isActive p = false) ->
  createOrder env userId req db
  = (mkResponse 400
       (Message ("Product " +:+ productId bad +:+ " not found or inactive")), db).
Proof.
  intros Hv [a Ha] Hitems HF Hbad.
  unfold createOrder. rewrite Hv, Ha, Hitems. cbn [negb].
  assert (Hloop : forall s acc,
            price_items db (before ++ bad :: after) s acc
            = inl (mkResponse 400
                     (Message ("Product " +:+ productId bad +:+ " not found or inactive")))).
  { clear -HF Hbad. induction HF as [|item p its ps' (Hp & Hact & Hs) _ IH]; intros s acc.
    - cbn [app price_items]. unfold product_findUnique.
      destruct (products db !! productId bad) as [p|] eqn:Hp; [|done].
      by rewrite (Hbad p eq_refl).
    - cbn [app price_items]. unfold product_findUnique.
      rewrite Hp, Hact, Hs. cbn [negb]. apply IH. }
  by rewrite Hloop.
Qed.

Lemma first_bad_line_decides_witness :
  let req := Demo.request [Demo.line 3;
                           {| productId := "nope"; quantity := 1;
                              size := None; color := None |};
                           Demo.line 100] in
  createOrder Demo.env0 "u1" req Demo.db0
  = (mkResponse 400 (Message "Product nope not found or inactive"), Demo.db0).
Proof.
  intros req.
  apply (first_bad_line_decides Demo.env0 "u1" req Demo.db0 [Demo.line 3]
           [Demo.line 100]
           {| productId := "nope"; quantity := 1; size := None; color := None |}
           [Demo.cotton]).
  - reflexivity.
  - vm_compute. eauto.
  - reflexivity.
  - repeat constructor; vm_compute; reflexivity.
  - intros p Hp. vm_compute in Hp. discriminate.
Defined.

Lemma updateMany_in_lookup ids f db pid :
  products (updateMany_in ids f db) !! pid
  = (fun p => if bool_decide (pid ∈ ids) then f p else p) <$> products db !! pid.
Proof.
  unfold updateMany_in. cbn [set_products products].
  rewrite map_lookup_imap. by destruct (products db !! pid).
Qed.

(** X26: after a bulk [deactivate], no order can be created that names one
    of the products listed: [createOrder] does not answer 201 and leaves
    the store as the bulk update left it. *)
Theorem deactivated_products_cannot_be_ordered
    (ids : list string) (db : Db) (env : Env) (userId : string) (req : Request)
    (item : Item) :
  item ∈ items req ->
  productId item ∈ ids ->
  let db1 := (bulkUpdate false ids Deactivate db).2 in
  code (createOrder env userId req db1).1 <> 201%nat /\
  (createOrder env userId req db1).2 = db1.
Proof.
  intros Hin Hid. cbn zeta. cbn [bulkUpdate snd].
  set (db1 := updateMany_in ids (set_isActive false) db).
  destruct (createOrder env userId req db1) as [resp db'] eqn:E. cbn [fst snd].
  assert (Hcode : code resp <> 201%nat).
  { intros Hcode.
    destruct (createOrder_created _ _ _ _ _ _ E Hcode)
      as (ps & o & _ & _ & _ & HF & _).
    apply list_elem_of_lookup in Hin as [i Hi].
    destruct (Forall2_lookup_l _ _ _ _ _ HF Hi) as (p & _ & Hp & Hact & _).
    unfold db1 in Hp. rewrite updateMany_in_lookup in Hp.
    destruct (products db !! productId item) as [p0|]; [|discriminate].
    cbn in Hp. rewrite bool_decide_eq_true_2 in Hp by done.
    injection Hp as <-. discriminate. }
  split; [done|]. by apply (createOrder_rollback _ _ _ _ _ _ E).
Qed.

Lemma deactivated_products_cannot_be_ordered_witness :
  let db1 := (bulkUpdate false ["p1"%string] Deactivate Demo.db0).2 in
  Demo.line 3 ∈ items (Demo.request [Demo.line 3]) /\
  code (createOrder Demo.env0 "u1" (Demo.request [Demo.line 3]) db1).1 <> 201%nat /\
  (createOrder Demo.env0 "u1" (Demo.request [Demo.line 3]) db1).2 = db1.
Proof.
  intros db1.
  assert (H1 : Demo.line 3 ∈ items (Demo.request [Demo.line 3]))
    by (apply list_elem_of_singleton; reflexivity).
  split; [exact H1|].
  apply (deactivated_products_cannot_be_ordered ["p1"%string] Demo.db0 Demo.env0 "u1"
           (Demo.request [Demo.line 3]) (Demo.line 3) H1).
  apply list_elem_of_singleton. reflexivity.
Defined.

(** X27: the bulk update reports the number of ids it was given, not the
    number of products it changed: when none of the ids names a product it
    changes nothing and still answers that [length ids] products were
    updated. *)
Theorem bulk_update_counts_requested_ids
    (ids : list string) (action : BulkAction) (db : Db) :
  action <> OtherAction ->
  (forall id, id ∈ ids -> products db !! id = None) ->
  (bulkUpdate false ids action db).1
    = mkResponse 200
        (Message (pretty (length ids) +:+ " products updated successfully")) /\
  (bulkUpdate false ids action db).2 = db.
Proof.
  intros Hact Hnone.
  assert (Hsame : forall f, updateMany_in ids f db = db).
  { intros f. destruct db as [P A O]. unfold updateMany_in, set_products. cbn in *.
    f_equal. apply map_eq. intros pid. rewrite map_lookup_imap.
    destruct (P !! pid) as [p|] eqn:Hp; [|done]. cbn.
    rewrite bool_decide_eq_false_2; [done|].
    intros Hin. rewrite (Hnone pid Hin) in Hp. discriminate. }
  destruct action; cbn [bulkUpdate fst snd]; try done; by rewrite Hsame.
Qed.

Lemma bulk_update_counts_requested_ids_witness :
  (bulkUpdate false ["x"%string; "y"%string] Activate Demo.db0).1
    = mkResponse 200 (Message "2 products updated successfully") /\
  (bulkUpdate false ["x"%string; "y"%string] Activate Demo.db0).2 = Demo.db0.
Proof.
  apply (bulk_update_counts_requested_ids ["x"%string; "y"%string] Activate Demo.db0).
  - discriminate.
  - intros id Hid.
    apply elem_of_cons in Hid as [->|Hid]; [vm_compute; reflexivity|].
    apply list_elem_of_singleton in Hid as ->. vm_compute. reflexivity.
Defined.
End MoreOrderFacts.
